(** * paasta_tools/cleanup_chronos_jobs.py

    A shallow embedding of the Chronos clean-up script and the properties
    its specification states about it.

    The script is Python 2 (it uses the [print] statement).  Its pure parts
    are embedded as functions; the calls to the Chronos client, [print] and
    [sys.exit] are embedded in a small state-and-exception monad whose state
    is the log of client calls made so far and the lines written to stdout. *)

From Stdlib Require Import ZArith Lia Ascii String.
From stdpp Require Import base list strings gmap sorting.

Local Open Scope string_scope.
Local Open Scope list_scope.

(** ** Python sets

    [jobs_to_delete] builds two sets, takes their difference and turns the
    result into a list.  What the language promises about these three
    operations is collected in [PySetLaws]; the order in which a set is
    iterated is left to the implementation [PySetOps]. *)

Record PySetOps : Type := {
  pyset : Type;
  (** [set(iterable)] *)
  set_new : list string → pyset;
  (** [s.difference(t)] *)
  set_difference : pyset → pyset → pyset;
  (** [list(s)]: the elements in iteration order *)
  set_iter : pyset → list string;
}.

Class PySetLaws (O : PySetOps) : Prop := {
  set_iter_NoDup : ∀ s : pyset O, NoDup (set_iter O s);
  elem_of_set_new : ∀ (l : list string) (x : string),
    x ∈ set_iter O (set_new O l) ↔ x ∈ l;
  elem_of_set_difference : ∀ (s t : pyset O) (x : string),
    x ∈ set_iter O (set_difference O s t) ↔
    x ∈ set_iter O s ∧ x ∉ set_iter O t;
}.

(** [def jobs_to_delete(expected_jobs, actual_jobs):
       return list(set(actual_jobs).difference(set(expected_jobs)))] *)
Definition jobs_to_delete (O : PySetOps)
    (expected_jobs actual_jobs : list string) : list string :=
  set_iter O (set_difference O (set_new O actual_jobs) (set_new O expected_jobs)).

(** *** A lawful implementation: finite sets of stdpp *)

Definition gset_ops : PySetOps := {|
  pyset := gset string;
  set_new := list_to_set;
  set_difference := λ s t, s ∖ t;
  set_iter := elements;
|}.

(** *** The set of CPython 2.7 (Objects/setobject.c, 64-bit build)

    An open-addressing hash table that starts with 8 slots; iteration goes
    through the slots in index order.  No entry is ever deleted here, so
    the table holds no dummy entries. *)

Module CPython27.

Local Open Scope Z_scope.

Definition wrap64 (x : Z) : Z := x mod 2 ^ 64.

Definition ord (c : ascii) : Z := Z.of_N (Ascii.N_of_ascii c).

Fixpoint string_hash_loop (s : string) (x : Z) : Z :=
  match s with
  | EmptyString => x
  | String c s' => string_hash_loop s' (Z.lxor (wrap64 (1000003 * x)) (ord c))
  end.

(** [string_hash] of Objects/stringobject.c, without hash randomisation;
    the C [long] is kept as its 64-bit pattern. *)
Definition string_hash (s : string) : Z :=
  match s with
  | EmptyString => 0
  | String c _ =>
      let x := string_hash_loop s (Z.shiftl (ord c) 7) in
      let x := Z.lxor x (Z.of_nat (String.length s)) in
      if decide (x = 2 ^ 64 - 1) then 2 ^ 64 - 2 else x
  end.

Definition table : Type := list (option string).

Definition PySet_MINSIZE : nat := 8.
Definition PERTURB_SHIFT : Z := 5.

Definition mask (t : table) : Z := Z.of_nat (length t) - 1.
Definition used (t : table) : nat := length (omap id t).

(** The slot [set_lookkey_string] ends on: the one holding [key], or the
    first empty one on the probe path.  The C loop has no bound; the path
    reaches every slot and a table always has an empty one, so the fuel
    given by [set_lookkey] is never used up. *)
Fixpoint probe (fuel : nat) (t : table) (key : string) (i perturb : Z)
    : option nat :=
  let slot := Z.to_nat (Z.land i (mask t)) in
  match t !! slot with
  | None => None
  | Some None => Some slot
  | Some (Some k) =>
      if decide (k = key) then Some slot
      else match fuel with
           | O => None
           | S fuel' =>
               probe fuel' t key
                 (wrap64 (Z.shiftl i 2 + i + perturb + 1))
                 (Z.shiftr perturb PERTURB_SHIFT)
           end
  end.

Definition set_lookkey (t : table) (key : string) : option nat :=
  let h := string_hash key in
  probe (64 + length t)%nat t key (Z.land h (mask t)) h.

Definition set_contains_key (t : table) (key : string) : bool :=
  match set_lookkey t key with
  | Some slot => bool_decide (t !! slot = Some (Some key))
  | None => false
  end.

(** [set_insert_key]; also [set_insert_clean], whose key is never present. *)
Definition set_insert_key (t : table) (key : string) : table :=
  match set_lookkey t key with
  | Some slot => <[slot := Some key]> t
  | None => t
  end.

Fixpoint new_size (fuel : nat) (newsize minused : nat) : nat :=
  match fuel with
  | O => newsize
  | S fuel' =>
      if decide (newsize ≤ minused)%nat
      then new_size fuel' (2 * newsize)%nat minused
      else newsize
  end.

Definition set_table_resize (t : table) (minused : nat) : table :=
  let newsize := new_size (S minused) PySet_MINSIZE minused in
  foldl set_insert_key (replicate newsize None) (omap id t).

Definition set_add_key (t : table) (key : string) : table :=
  let n_used := used t in
  let t' := set_insert_key t key in
  if decide (n_used < used t' ∧ 2 * length t' ≤ 3 * used t')%nat
  then set_table_resize t'
         (if decide (50000 < Z.of_nat (used t'))%Z
          then 2 * used t' else 4 * used t')%nat
  else t'.

Definition make_new_set (l : list string) : table :=
  foldl set_add_key (replicate PySet_MINSIZE None) l.

Definition set_difference (so other : table) : table :=
  foldl (λ result key,
           if set_contains_key other key then result
           else set_add_key result key)
        (replicate PySet_MINSIZE None) (omap id so).

Definition ops : PySetOps :=
  Build_PySetOps table make_new_set set_difference (omap id).

End CPython27.

(** ** Python values, exceptions and the effects of the script *)

(** The part of the exception hierarchy of Python 2 that matters here:
    [SystemExit], [KeyboardInterrupt] and [GeneratorExit] derive from
    [BaseException] only, every other class derives from [Exception]. *)
Inductive exc_class : Type :=
  | SystemExit
  | KeyboardInterrupt
  | GeneratorExit
  | Exception
  | KeyError
  | ExceptionSubclass (name : string).

Definition issubclass_Exception (cls : exc_class) : bool :=
  match cls with
  | SystemExit | KeyboardInterrupt | GeneratorExit => false
  | Exception | KeyError | ExceptionSubclass _ => true
  end.

(** Values a client call can hand back.  An exception object is a value
    like any other: [PyExc cls arg] is the object [cls(arg)]. *)
Inductive pyval : Type :=
  | PyNone
  | PyInt (n : Z)
  | PyStr (s : string)
  | PyExc (cls : exc_class) (arg : pyval).

(** [isinstance(v, Exception)] *)
Definition isinstance_Exception (v : pyval) : bool :=
  match v with
  | PyExc cls _ => issubclass_Exception cls
  | _ => false
  end.

(** How the evaluation of an expression ends. *)
Inductive completion (A : Type) : Type :=
  | Returned (a : A)
  | Raised (cls : exc_class) (arg : pyval).
Arguments Returned {A} a.
Arguments Raised {A} cls arg.

Inductive api_call : Type :=
  | ApiList
  | ApiDeleteTasks (job : string)
  | ApiDelete (job : string).

(** What the script does to the outside: the calls it has sent to the
    Chronos client, oldest first, and the strings it has printed. *)
Record world : Type := World {
  calls : list api_call;
  stdout : list string;
}.

Definition M (A : Type) : Type := world → world * completion A.

Definition ret {A} (a : A) : M A := λ w, (w, Returned a).

Definition bind {A B} (m : M A) (f : A → M B) : M B :=
  λ w, match m w with
       | (w', Returned a) => f a w'
       | (w', Raised cls arg) => (w', Raised cls arg)
       end.

#[global] Instance M_ret : MRet M := @ret.
#[global] Instance M_bind : MBind M := λ A B f m, bind m f.

(** [raise cls(arg)] *)
Definition raise {A} (cls : exc_class) (arg : pyval) : M A :=
  λ w, (w, Raised cls arg).

(** [try: body / except Exception as e: handler(e)] *)
Definition try_except_Exception {A} (body : M A) (handler : pyval → M A) : M A :=
  λ w, match body w with
       | (w', Returned a) => (w', Returned a)
       | (w', Raised cls arg) =>
           if issubclass_Exception cls then handler (PyExc cls arg) w'
           else (w', Raised cls arg)
       end.

(** [[f(x) for x in l]] *)
Fixpoint list_comprehension {A B} (f : A → M B) (l : list A) : M (list B) :=
  match l with
  | [] => ret []
  | x :: l' => y ← f x; ys ← list_comprehension f l'; ret (y :: ys)
  end.

(** [print s] *)
Definition print (s : string) : M unit :=
  λ w, (World (calls w) (stdout w ++ [s]), Returned ()).

(** [sys.exit(n)] *)
Definition sys_exit {A} (n : Z) : M A := raise SystemExit (PyInt n).

(** The exit status of the interpreter that ran [main()] as the script:
    0 when [main] returns, the code of an uncaught [SystemExit], and 1
    (after a traceback) for any other uncaught exception. *)
Definition exit_status (r : completion unit) : Z :=
  match r with
  | Returned _ => 0
  | Raised SystemExit PyNone => 0
  | Raised SystemExit (PyInt n) => Z.land n 255
  | Raised _ _ => 1
  end.

(** ** The Chronos client

    The client is not part of this module; the script uses its methods
    [list], [delete] and [delete_tasks].  The scheduler behind it is
    stateful, so what a method does may depend on the calls sent before. *)
Record chronos_client : Type := {
  on_list : list api_call → completion (list (gmap string string));
  on_delete : list api_call → string → completion pyval;
  on_delete_tasks : list api_call → string → completion pyval;
}.

Module Client.

Definition list (client : chronos_client) : M (list (gmap string string)) :=
  λ w, (World (calls w ++ [ApiList]) (stdout w), on_list client (calls w)).

Definition delete (client : chronos_client) (job : string) : M pyval :=
  λ w, (World (calls w ++ [ApiDelete job]) (stdout w),
        on_delete client (calls w) job).

Definition delete_tasks (client : chronos_client) (job : string) : M pyval :=
  λ w, (World (calls w ++ [ApiDeleteTasks job]) (stdout w),
        on_delete_tasks client (calls w) job).

End Client.

(** ** The script *)

(** [try: return api_call(job) / except Exception as e: return e] *)
Definition execute_chronos_api_call_for_job
    (api_call : string → M pyval) (job : string) : M pyval :=
  try_except_Exception (api_call job) (λ e, ret e).

(** [[(job, execute_chronos_api_call_for_job(client.delete, job)) for job in jobs]] *)
Definition cleanup_jobs (client : chronos_client) (jobs : list string)
    : M (list (string * pyval)) :=
  list_comprehension
    (λ job, r ← execute_chronos_api_call_for_job (Client.delete client) job;
            ret (job, r))
    jobs.

(** [[(job, execute_chronos_api_call_for_job(client.delete_tasks, job)) for job in jobs]] *)
Definition cleanup_tasks (client : chronos_client) (jobs : list string)
    : M (list (string * pyval)) :=
  list_comprehension
    (λ job, r ← execute_chronos_api_call_for_job (Client.delete_tasks client) job;
            ret (job, r))
    jobs.

Definition newline : string := String (ascii_of_nat 10) EmptyString.

(** ['%s\n  %s' % (title, '\n  '.join(job_names))] *)
Definition format_list_output (title : string) (job_names : list string) : string :=
  title +:+ newline +:+ "  " +:+ String.concat (newline +:+ "  ") job_names.

(** [job['name']] *)
Definition dict_getitem (d : gmap string string) (key : string) : M string :=
  match d !! key with
  | Some v => ret v
  | None => raise KeyError (PyStr key)
  end.

(** [[job['name'] for job in client.list()]] *)
Definition running_job_names (client : chronos_client) : M (list string) :=
  jobs ← Client.list client;
  list_comprehension (λ job, dict_getitem job "name") jobs.

(** [[job[-1] for job in service_job_pairs]], on pairs
    [(service_name, job_name)] *)
Definition expected_job_names (service_job_pairs : list (string * string))
    : list string :=
  map snd service_job_pairs.

(** The loop of [main] that sorts the responses into two lists:
    [for response in responses:
       if isinstance(response[-1], Exception): failures.append(response)
       else: successes.append(response)].
    The result is the pair [(successes, failures)]. *)
Definition partition_responses (responses : list (string * pyval))
    : list (string * pyval) * list (string * pyval) :=
  foldl (λ acc response,
           if isinstance_Exception response.2
           then (acc.1, acc.2 ++ [response])
           else (acc.1 ++ [response], acc.2))
        ([], []) responses.

(** [if cond: print s] *)
Definition print_if (cond : bool) (s : string) : M unit :=
  if cond then print s else ret ().

(** [main]; its arguments are the set implementation of the interpreter,
    the client that [chronos_tools.get_chronos_client] built and the pairs
    that [chronos_tools.get_chronos_jobs_for_cluster] returned. *)
Definition main (O : PySetOps) (client : chronos_client)
    (service_job_pairs : list (string * string)) : M unit :=
  let expected_jobs := expected_job_names service_job_pairs in
  running_jobs ← running_job_names client;
  let to_delete := jobs_to_delete O expected_jobs running_jobs in
  task_responses ← cleanup_tasks client to_delete;
  let task_successes := (partition_responses task_responses).1 in
  let task_failures := (partition_responses task_responses).2 in
  job_responses ← cleanup_jobs client to_delete;
  let job_successes := (partition_responses job_responses).1 in
  let job_failures := (partition_responses job_responses).2 in
  if decide (length to_delete = 0%nat) then
    print "No Chronos Jobs to remove"
  else
    print_if (bool_decide (0 < length task_successes)%nat)
      (format_list_output "Successfully Removed Tasks (if any were running) for:"
         (map fst task_successes));;
    print_if (bool_decide (0 < length task_failures)%nat)
      (format_list_output "Failed to Delete Tasks for:" (map fst task_failures));;
    print_if (bool_decide (0 < length job_successes)%nat)
      (format_list_output "Successfully Removed Jobs:" (map fst job_successes));;
    print_if (bool_decide (0 < length job_failures)%nat)
      (format_list_output "Failed to Delete Jobs:" (map fst job_failures));;
    if bool_decide (0 < length job_failures)%nat
       || bool_decide (0 < length task_failures)%nat
    then sys_exit 1
    else ret ().

(** ** The order on job identifiers and the orphan set of the specification *)

(** Python compares byte strings position by position, by character code. *)
Definition str_le (s t : string) : Prop := String.leb s t = true.

#[global] Instance str_le_dec : RelDecision str_le.
Proof. intros s t. unfold str_le. apply _. Defined.

(** The orphan set the way the specification words it: the elements of the
    actual jobs that are not expected, each once, sorted by identifier. *)
Definition sorted_orphans (expected_jobs actual_jobs : list string) : list string :=
  merge_sort str_le
    (remove_dups (filter (λ job, job ∉ expected_jobs) actual_jobs)).

(** ** Vocabulary of the specification *)

(** The response recorded for a call: the value it returned, or the
    exception object when it raised. *)
Definition response_of (r : completion pyval) : pyval :=
  match r with
  | Returned v => v
  | Raised cls arg => PyExc cls arg
  end.

(** The test [main] applies to a recorded response. *)
Definition failed (response : string * pyval) : Prop :=
  isinstance_Exception response.2 = true.
Definition succeeded (response : string * pyval) : Prop :=
  isinstance_Exception response.2 = false.

#[global] Instance failed_dec response : Decision (failed response).
Proof. unfold failed. apply _. Defined.
#[global] Instance succeeded_dec response : Decision (succeeded response).
Proof. unfold succeeded. apply _. Defined.

(** A client that signals every failure of [delete] and [delete_tasks] by
    raising an instance of [Exception], which is what the docstring of
    [execute_chronos_api_call_for_job] says the Chronos client does. *)
Definition raises_only_Exception (client : chronos_client) : Prop :=
  ∀ (h : list api_call) (job : string) (cls : exc_class) (arg : pyval),
    on_delete client h job = Raised cls arg ∨
    on_delete_tasks client h job = Raised cls arg →
    issubclass_Exception cls = true.

(** The responses a clean-up pass records when no exception escapes: the
    call for a job sees the calls of this pass for the jobs before it. *)
Fixpoint responses (respond : list api_call → string → completion pyval)
    (mk : string → api_call) (h : list api_call) (jobs : list string)
    : list (string * pyval) :=
  match jobs with
  | [] => []
  | job :: jobs' =>
      (job, response_of (respond h job)) :: responses respond mk (h ++ [mk job]) jobs'
  end.

(** The comprehension of [cleanup_jobs] and [cleanup_tasks] over a method
    of the client that logs the call [mk job] and answers [respond]. *)
Definition clean_up_pass (respond : list api_call → string → completion pyval)
    (mk : string → api_call) (jobs : list string) : M (list (string * pyval)) :=
  list_comprehension
    (λ job, r ← execute_chronos_api_call_for_job
                  (λ job w, (World (calls w ++ [mk job]) (stdout w),
                             respond (calls w) job)) job;
            mret (job, r))
    jobs.

(** No exception that the wrapper lets through is raised during a pass
    over [jobs] that starts after the calls [h]. *)
Definition all_caught (respond : list api_call → string → completion pyval)
    (mk : string → api_call) (h : list api_call) (jobs : list string) : Prop :=
  ∀ i job cls arg,
    jobs !! i = Some job →
    respond (h ++ (mk <$> take i jobs)) job = Raised cls arg →
    issubclass_Exception cls = true.

(** The report of the specification: one section per bucket that is not
    empty, the task buckets first, successes before failures. *)
Definition report_section (title : string) (bucket : list (string * pyval))
    : list string :=
  match bucket with
  | [] => []
  | _ :: _ => [format_list_output title (map fst bucket)]
  end.

Definition report_stdout (to_delete : list string)
    (task_responses job_responses : list (string * pyval)) : list string :=
  match to_delete with
  | [] => ["No Chronos Jobs to remove"]
  | _ :: _ =>
      report_section "Successfully Removed Tasks (if any were running) for:"
        (filter succeeded task_responses) ++
      report_section "Failed to Delete Tasks for:" (filter failed task_responses) ++
      report_section "Successfully Removed Jobs:" (filter succeeded job_responses) ++
      report_section "Failed to Delete Jobs:" (filter failed job_responses)
  end.

(** ** Example clients *)

(** The example of the specification: jobs X, Y and Z are running and the
    task deletion of Z fails with an [Exception]. *)
Definition example_client : chronos_client := {|
  on_list := λ _, Returned [ {["name" := "svc.jobX"]};
                             {["name" := "svc.jobY"]};
                             {["name" := "svc.jobZ"]} ];
  on_delete := λ _ _, Returned PyNone;
  on_delete_tasks := λ _ job,
    if decide (job = "svc.jobZ") then Raised Exception (PyStr "boom")
    else Returned PyNone;
|}.

(** A client whose [delete_tasks] is interrupted from the keyboard while
    it works on job a. *)
Definition interrupted_client : chronos_client := {|
  on_list := λ _, Returned [ {["name" := "a"]}; {["name" := "b"]} ];
  on_delete := λ _ _, Returned PyNone;
  on_delete_tasks := λ _ job,
    if decide (job = "a") then Raised KeyboardInterrupt PyNone
    else Returned PyNone;
|}.


(** A client that cannot reach the scheduler: [list] raises. *)
Definition unreachable_client : chronos_client := {|
  on_list := λ _, Raised Exception (PyStr "connection refused");
  on_delete := λ _ _, Returned PyNone;
  on_delete_tasks := λ _ _, Returned PyNone;
|}.

(** A client whose second job record has no name. *)
Definition nameless_client : chronos_client := {|
  on_list := λ _, Returned [ {["name" := "a"]}; {["owner" := "b"]} ];
  on_delete := λ _ _, Returned PyNone;
  on_delete_tasks := λ _ _, Returned PyNone;
|}.

(** A client for which every deletion works. *)
Definition healthy_client : chronos_client := {|
  on_list := λ _, Returned [ {["name" := "a"]}; {["name" := "b"]} ];
  on_delete := λ _ _, Returned PyNone;
  on_delete_tasks := λ _ _, Returned PyNone;
|}.

(** A client whose [delete] is interrupted while it works on job b. *)
Definition interrupted_delete_client : chronos_client := {|
  on_list := λ _, Returned [ {["name" := "a"]}; {["name" := "b"]} ];
  on_delete := λ _ job,
    if decide (job = "b") then Raised KeyboardInterrupt PyNone
    else Returned PyNone;
  on_delete_tasks := λ _ _, Returned PyNone;
|}.

(** A lawful implementation that iterates the other way round. *)
Definition reversed_gset_ops : PySetOps := {|
  pyset := gset string;
  set_new := list_to_set;
  set_difference := λ s t, s ∖ t;
  set_iter := λ s, reverse (elements s);
|}.

#[global] Instance api_call_eq_dec : EqDecision api_call.
Proof. solve_decision. Defined.

(** A client whose answer for a job does not depend on the calls that were
    sent before. *)
Definition answers_by_job_only (client : chronos_client) : Prop :=
  ∀ (h h' : list api_call) (job : string),
    on_delete_tasks client h job = on_delete_tasks client h' job ∧
    on_delete client h job = on_delete client h' job.

(** A client whose [delete_tasks] fails with an [Exception] for job a and
    is interrupted from the keyboard for job b. *)
Definition mixed_client : chronos_client := {|
  on_list := λ _, Returned [ {["name" := "a"]}; {["name" := "b"]};
                             {["name" := "c"]} ];
  on_delete := λ _ _, Returned PyNone;
  on_delete_tasks := λ _ job,
    if decide (job = "a") then Raised Exception (PyStr "boom")
    else if decide (job = "b") then Raised KeyboardInterrupt PyNone
    else Returned PyNone;
|}.

(** A client whose scheduler is busy when the first deletion arrives: the
    [delete_tasks] call that comes right after [list] fails, whatever job
    it is for. *)
Definition busy_at_first_client : chronos_client := {|
  on_list := λ _, Returned [ {["name" := "a"]}; {["name" := "b"]} ];
  on_delete := λ _ _, Returned PyNone;
  on_delete_tasks := λ h _,
    if decide (h = [ApiList]) then Raised Exception (PyStr "busy")
    else Returned PyNone;
|}.

(** * Properties *)

(** ** The diff: [jobs_to_delete] *)

#[global] Instance str_le_total : Total str_le.
Proof. intros s t. apply String.leb_total. Qed.

#[global] Instance str_le_antisymm : AntiSymm (=) str_le.
Proof. intros s t Hst Hts. by apply String.leb_antisym. Qed.

Lemma str_le_compare (s t : string) : str_le s t ↔ String.compare s t ≠ Gt.
Proof.
  unfold str_le, String.leb. destruct (String.compare s t); naive_solver.
Qed.

Lemma compare_trans_Lt (s t u : string) :
  String.compare s t = Lt → String.compare t u = Lt → String.compare s u = Lt.
Proof.
  revert t u. induction s as [|a s IH]; intros [|b t] [|c u]; simpl; try done.
  unfold Ascii.compare.
  destruct (N.compare_spec (N_of_ascii a) (N_of_ascii b)) as [Hab|Hab|Hab];
    try done;
    destruct (N.compare_spec (N_of_ascii b) (N_of_ascii c)) as [Hbc|Hbc|Hbc];
    try done.
  - rewrite Hab, Hbc, N.compare_refl. apply IH.
  - intros _ _. rewrite Hab. by apply N.compare_lt_iff in Hbc as ->.
  - intros _ _. rewrite <-Hbc. by apply N.compare_lt_iff in Hab as ->.
  - intros _ _.
    assert (N_of_ascii a < N_of_ascii c)%N as Hac by lia.
    by apply N.compare_lt_iff in Hac as ->.
Qed.

#[global] Instance str_le_trans : Transitive str_le.
Proof.
  intros s t u. rewrite !str_le_compare. intros Hst Htu.
  destruct (String.compare s t) eqn:Est; [| |done].
  - apply String.compare_eq_iff in Est. by subst.
  - destruct (String.compare t u) eqn:Etu; [| |done].
    + apply String.compare_eq_iff in Etu. subst. by rewrite Est.
    + by rewrite (compare_trans_Lt s t u).
Qed.

#[global] Instance gset_laws : PySetLaws gset_ops.
Proof.
  split; simpl.
  - apply NoDup_elements.
  - intros l x. by rewrite elem_of_elements, elem_of_list_to_set.
  - intros s t x. by rewrite !elem_of_elements, elem_of_difference.
Qed.

Section diff.
Context (O : PySetOps) `{!PySetLaws O}.
Implicit Types expected_jobs actual_jobs : list string.

Lemma elem_of_jobs_to_delete expected_jobs actual_jobs (job : string) :
  job ∈ jobs_to_delete O expected_jobs actual_jobs ↔
  job ∈ actual_jobs ∧ job ∉ expected_jobs.
Proof.
  unfold jobs_to_delete.
  by rewrite elem_of_set_difference, !elem_of_set_new.
Qed.

Lemma NoDup_jobs_to_delete expected_jobs actual_jobs :
  NoDup (jobs_to_delete O expected_jobs actual_jobs).
Proof. apply set_iter_NoDup. Qed.

Lemma jobs_to_delete_nil expected_jobs actual_jobs :
  jobs_to_delete O expected_jobs actual_jobs = [] ↔
  ∀ job, job ∈ actual_jobs → job ∈ expected_jobs.
Proof.
  split.
  - intros Hnil job Hjob.
    destruct (decide (job ∈ expected_jobs)) as [|Hout]; [done|].
    assert (job ∈ jobs_to_delete O expected_jobs actual_jobs) as Hin
      by by apply elem_of_jobs_to_delete.
    rewrite Hnil in Hin. by apply elem_of_nil in Hin.
  - intros Hsub.
    destruct (jobs_to_delete O expected_jobs actual_jobs) as [|job l] eqn:Hl;
      [done|].
    assert (job ∈ jobs_to_delete O expected_jobs actual_jobs) as Hin
      by (rewrite Hl; left).
    apply elem_of_jobs_to_delete in Hin as [Hin Hout].
    by destruct Hout; apply Hsub.
Qed.

Lemma jobs_to_delete_Permutation expected_jobs actual_jobs
    expected_jobs' actual_jobs' :
  (∀ job, job ∈ expected_jobs' ↔ job ∈ expected_jobs) →
  (∀ job, job ∈ actual_jobs' ↔ job ∈ actual_jobs) →
  jobs_to_delete O expected_jobs' actual_jobs' ≡ₚ
  jobs_to_delete O expected_jobs actual_jobs.
Proof.
  intros HE HA. apply NoDup_Permutation; try apply NoDup_jobs_to_delete.
  intros job. by rewrite !elem_of_jobs_to_delete, HE, HA.
Qed.

Lemma jobs_to_delete_sorted_orphans expected_jobs actual_jobs :
  jobs_to_delete O expected_jobs actual_jobs ≡ₚ
  sorted_orphans expected_jobs actual_jobs.
Proof.
  unfold sorted_orphans. rewrite merge_sort_Permutation.
  apply NoDup_Permutation.
  - apply NoDup_jobs_to_delete.
  - apply NoDup_remove_dups.
  - intros job.
    rewrite elem_of_jobs_to_delete, elem_of_remove_dups, list_elem_of_filter.
    tauto.
Qed.

End diff.

(** ** The monad *)

Lemma bind_Returned {A B} (m : M A) (f : A → M B) w w' a :
  m w = (w', Returned a) → (m ≫= f) w = f a w'.
Proof. intros Hm. unfold mbind, M_bind, bind. by rewrite Hm. Qed.

Lemma bind_Raised {A B} (m : M A) (f : A → M B) w w' cls arg :
  m w = (w', Raised cls arg) → (m ≫= f) w = (w', Raised cls arg).
Proof. intros Hm. unfold mbind, M_bind, bind. by rewrite Hm. Qed.

Lemma world_eta w : World (calls w) (stdout w) = w.
Proof. by destruct w. Qed.

(** ** The wrapper: [execute_chronos_api_call_for_job] *)


Lemma execute_chronos_api_call_for_job_caught api_call job w w' cls arg :
  api_call job w = (w', Raised cls arg) →
  issubclass_Exception cls = true →
  execute_chronos_api_call_for_job api_call job w = (w', Returned (PyExc cls arg)).
Proof.
  intros Hcall Hcls. unfold execute_chronos_api_call_for_job, try_except_Exception.
  by rewrite Hcall, Hcls.
Qed.

Lemma execute_chronos_api_call_for_job_escapes api_call job w w' cls arg :
  api_call job w = (w', Raised cls arg) →
  issubclass_Exception cls = false →
  execute_chronos_api_call_for_job api_call job w = (w', Raised cls arg).
Proof.
  intros Hcall Hcls. unfold execute_chronos_api_call_for_job, try_except_Exception.
  by rewrite Hcall, Hcls.
Qed.

(** ** A clean-up pass

    [cleanup_jobs] and [cleanup_tasks] are the same comprehension over two
    methods of the client; both are instances of [clean_up_pass]. *)
Section pass.
Context (respond : list api_call → string → completion pyval)
        (mk : string → api_call).

Lemma all_caught_cons h job jobs :
  all_caught respond mk h (job :: jobs) → all_caught respond mk (h ++ [mk job]) jobs.
Proof.
  intros Hall i job' cls arg Hi Hr.
  apply (Hall (S i) job' cls arg); [done|].
  by rewrite <-Hr; simpl; rewrite <-(assoc_L (++)).
Qed.

Lemma pass_step job jobs w :
  clean_up_pass respond mk (job :: jobs) w =
  match respond (calls w) job with
  | Raised cls arg =>
      if issubclass_Exception cls
      then match clean_up_pass respond mk jobs (World (calls w ++ [mk job]) (stdout w)) with
           | (w', Returned l) => (w', Returned ((job, PyExc cls arg) :: l))
           | (w', Raised cls' arg') => (w', Raised cls' arg')
           end
      else (World (calls w ++ [mk job]) (stdout w), Raised cls arg)
  | Returned v =>
      match clean_up_pass respond mk jobs (World (calls w ++ [mk job]) (stdout w)) with
      | (w', Returned l) => (w', Returned ((job, v) :: l))
      | (w', Raised cls' arg') => (w', Raised cls' arg')
      end
  end.
Proof.
  unfold clean_up_pass; simpl.
  unfold mbind, M_bind, bind, execute_chronos_api_call_for_job,
    try_except_Exception, mret, M_ret, ret; simpl.
  destruct (respond (calls w) job) as [v|cls arg]; simpl.
  - by destruct (list_comprehension _ jobs _) as [w' [l|cls' arg']].
  - destruct (issubclass_Exception cls); simpl; [|done].
    by destruct (list_comprehension _ jobs _) as [w' [l|cls' arg']].
Qed.

(** Whatever happens, the pass sends the calls for a prefix of [jobs], in
    order, and prints nothing. *)
Lemma pass_calls jobs w :
  ∃ n, (n ≤ length jobs)%nat ∧
    (clean_up_pass respond mk jobs w).1 = World (calls w ++ (mk <$> take n jobs)) (stdout w).
Proof.
  revert w. induction jobs as [|job jobs IH]; intros w.
  - exists 0%nat. split; [done|]. simpl. by rewrite app_nil_r, world_eta.
  - rewrite pass_step.
    destruct (IH (World (calls w ++ [mk job]) (stdout w))) as (n & Hn & Hpass).
    simpl in Hpass. rewrite <-(assoc_L (++)) in Hpass.
    assert (∃ n', (n' ≤ length (job :: jobs))%nat ∧
              World (calls w ++ [mk job]) (stdout w) =
              World (calls w ++ (mk <$> take n' (job :: jobs))) (stdout w))
      as Hone by (exists 1%nat; simpl; split; [lia|done]).
    assert (∃ n', (n' ≤ length (job :: jobs))%nat ∧
              (clean_up_pass respond mk jobs (World (calls w ++ [mk job]) (stdout w))).1 =
              World (calls w ++ (mk <$> take n' (job :: jobs))) (stdout w))
      as Hmore by (exists (S n); simpl; split; [lia|done]).
    destruct (respond (calls w) job) as [v|cls arg];
      [|destruct (issubclass_Exception cls); [|done]];
      by destruct (clean_up_pass respond mk jobs _) as [w' [l|cls' arg']].
Qed.

Lemma all_caught_cons_2 h job jobs :
  (∀ cls arg, respond h job = Raised cls arg → issubclass_Exception cls = true) →
  all_caught respond mk (h ++ [mk job]) jobs →
  all_caught respond mk h (job :: jobs).
Proof.
  intros Hhead Htail [|i] job' cls arg Hi Hr; simpl in *.
  - rewrite app_nil_r in Hr. simplify_eq. by eapply Hhead.
  - rewrite cons_middle, (assoc_L (++)) in Hr. by eapply Htail.
Qed.

(** When the pass returns, it has sent one call per job and recorded one
    response per job. *)
Lemma pass_Returned_inv jobs w w' l :
  clean_up_pass respond mk jobs w = (w', Returned l) →
  w' = World (calls w ++ (mk <$> jobs)) (stdout w) ∧
  l = responses respond mk (calls w) jobs ∧
  all_caught respond mk (calls w) jobs.
Proof.
  revert w w' l. induction jobs as [|job jobs IH]; intros w w' l.
  - intros [= <- <-]. simpl. rewrite app_nil_r, world_eta.
    split_and!; [done..|]. by intros i job cls arg Hi.
  - rewrite pass_step.
    destruct (respond (calls w) job) as [v|cls arg] eqn:Hr;
      [|destruct (issubclass_Exception cls) eqn:Hcls; [|done]];
      destruct (clean_up_pass respond mk jobs _) as [w'' [l'|cls' arg']] eqn:Hpass; try done;
      intros [= <- <-];
      apply IH in Hpass as (-> & -> & Hall); simpl in *; rewrite Hr;
      rewrite <-(assoc_L (++)); (split_and!; [done..|]);
      apply all_caught_cons_2; try done; congruence.
Qed.

(** When every exception is one the wrapper catches, the pass returns. *)
Lemma pass_Returned jobs w :
  all_caught respond mk (calls w) jobs →
  clean_up_pass respond mk jobs w = (World (calls w ++ (mk <$> jobs)) (stdout w),
                 Returned (responses respond mk (calls w) jobs)).
Proof.
  revert w. induction jobs as [|job jobs IH]; intros w Hall.
  - simpl. by rewrite app_nil_r, world_eta.
  - rewrite pass_step.
    pose proof (all_caught_cons _ _ _ Hall) as Hall'.
    specialize (IH (World (calls w ++ [mk job]) (stdout w)) Hall').
    simpl in IH. rewrite <-(assoc_L (++)) in IH. simpl.
    destruct (respond (calls w) job) as [v|cls arg] eqn:Hr.
    + by rewrite IH.
    + rewrite (Hall 0%nat job cls arg); [by rewrite IH|done|].
      by simpl; rewrite app_nil_r.
Qed.

Lemma responses_fst h jobs : (responses respond mk h jobs).*1 = jobs.
Proof.
  revert h. induction jobs as [|job jobs IH]; intros h; simpl; [done|].
  by rewrite IH.
Qed.

Lemma responses_length h jobs : length (responses respond mk h jobs) = length jobs.
Proof. by rewrite <-(responses_fst h jobs) at 2; rewrite length_fmap. Qed.

Lemma responses_lookup h jobs i job :
  jobs !! i = Some job →
  responses respond mk h jobs !! i =
  Some (job, response_of (respond (h ++ (mk <$> take i jobs)) job)).
Proof.
  revert h i. induction jobs as [|job' jobs IH]; intros h [|i] Hi;
    simplify_eq/=.
  - by rewrite app_nil_r.
  - rewrite (IH _ _ Hi). by rewrite <-(assoc_L (++)).
Qed.

End pass.

Lemma cleanup_tasks_pass client :
  cleanup_tasks client = clean_up_pass (on_delete_tasks client) ApiDeleteTasks.
Proof. reflexivity. Qed.

Lemma cleanup_jobs_pass client :
  cleanup_jobs client = clean_up_pass (on_delete client) ApiDelete.
Proof. reflexivity. Qed.

Lemma raises_only_Exception_all_caught client h jobs :
  raises_only_Exception client →
  all_caught (on_delete_tasks client) ApiDeleteTasks h jobs ∧
  all_caught (on_delete client) ApiDelete h jobs.
Proof.
  intros Hclient. split; intros i job cls arg _ Hr;
    eapply Hclient; [by right|by left].
Qed.

(** ** The buckets *)

Lemma partition_responses_filter responses :
  partition_responses responses =
  (filter succeeded responses, filter failed responses).
Proof.
  unfold partition_responses.
  enough (∀ acc,
    foldl (λ acc response,
             if isinstance_Exception response.2
             then (acc.1, acc.2 ++ [response])
             else (acc.1 ++ [response], acc.2)) acc responses =
    (acc.1 ++ filter succeeded responses, acc.2 ++ filter failed responses))
    as Hgen by apply Hgen.
  induction responses as [|r responses IH]; intros [ss fs]; simpl.
  - by rewrite !app_nil_r.
  - rewrite IH, !filter_cons.
    destruct (isinstance_Exception r.2) eqn:Hr; simpl;
      repeat case_decide; unfold succeeded, failed in *; try congruence;
      by rewrite <-?(assoc_L (++)).
Qed.

Lemma succeeded_not_failed response : succeeded response ↔ ¬ failed response.
Proof. unfold succeeded, failed. destruct (isinstance_Exception _); naive_solver. Qed.

(** ** Discovery *)

Lemma list_comprehension_dict_getitem (jobs : list (gmap string string)) key w :
  (list_comprehension (λ job, dict_getitem job key) jobs w).1 = w.
Proof.
  induction jobs as [|job jobs IH]; [done|]. simpl.
  unfold mbind, M_bind, bind, dict_getitem at 1.
  destruct (job !! key) as [v|]; simpl; [|done].
  destruct (list_comprehension _ jobs w) as [w' [l|cls arg]]; simpl in *; done.
Qed.

Lemma running_job_names_world client w :
  (running_job_names client w).1 = World (calls w ++ [ApiList]) (stdout w).
Proof.
  unfold running_job_names, mbind, M_bind, bind, Client.list.
  destruct (on_list client (calls w)) as [jobs|cls arg]; [|done].
  apply list_comprehension_dict_getitem.
Qed.

(** ** The report *)

Lemma print_if_run cond s w :
  print_if cond s w =
  (World (calls w) (stdout w ++ if cond then [s] else []), Returned ()).
Proof. destruct cond; simpl; [done|]. by rewrite app_nil_r, world_eta. Qed.

Lemma report_section_eq title bucket :
  report_section title bucket =
  if bool_decide (0 < length bucket)%nat
  then [format_list_output title bucket.*1] else [].
Proof. by destruct bucket. Qed.

Lemma filter_failed_Exists (responses : list (string * pyval)) :
  (0 < length (filter failed responses))%nat ↔ Exists failed responses.
Proof.
  rewrite Exists_exists. split.
  - destruct (filter failed responses) as [|r l] eqn:Hl; simpl; [lia|].
    intros _. exists r.
    assert (r ∈ filter failed responses) as Hin by (rewrite Hl; left).
    apply list_elem_of_filter in Hin. tauto.
  - intros (r & Hr & Hfailed).
    assert (r ∈ filter failed responses) as Hin by by apply list_elem_of_filter.
    destruct (filter failed responses); [by apply elem_of_nil in Hin|simpl; lia].
Qed.

Lemma filter_failed_nil (responses : list (string * pyval)) :
  filter failed responses = [] ↔ Forall succeeded responses.
Proof.
  rewrite Forall_forall. split.
  - intros Hnil r Hr. apply succeeded_not_failed. intros Hfailed.
    assert (r ∈ filter failed responses) as Hin by by apply list_elem_of_filter.
    rewrite Hnil in Hin. by apply elem_of_nil in Hin.
  - intros Hall. destruct (filter failed responses) as [|r l] eqn:Hl; [done|].
    assert (r ∈ filter failed responses) as Hin by (rewrite Hl; left).
    apply list_elem_of_filter in Hin as [Hfailed Hin].
    by apply Hall, succeeded_not_failed in Hin.
Qed.

(** ** A run of [main] that reaches the report

    [main] reaches its report when the client answered [list] and no
    exception escaped from the two clean-up passes.  The hypotheses name the
    list of running jobs and the responses the two passes recorded. *)
Section run.
Context (O : PySetOps) (client : chronos_client)
        (service_job_pairs : list (string * string)).
Context (w w1 w2 w3 : world) (running_jobs : list string)
        (task_responses job_responses : list (string * pyval)).

Local Notation "'to_delete'" :=
  (jobs_to_delete O (expected_job_names service_job_pairs) running_jobs).

Hypothesis discovery :
  running_job_names client w = (w1, Returned running_jobs).
Hypothesis tasks_pass :
  cleanup_tasks client to_delete w1 = (w2, Returned task_responses).
Hypothesis jobs_pass :
  cleanup_jobs client to_delete w2 = (w3, Returned job_responses).

Lemma run_w1 : w1 = World (calls w ++ [ApiList]) (stdout w).
Proof. by rewrite <-(running_job_names_world client w), discovery. Qed.

Lemma run_task_responses :
  w2 = World (calls w ++ ApiList :: (ApiDeleteTasks <$> to_delete)) (stdout w) ∧
  task_responses =
    responses (on_delete_tasks client) ApiDeleteTasks (calls w ++ [ApiList]) to_delete.
Proof.
  pose proof tasks_pass as Hpass. rewrite cleanup_tasks_pass, run_w1 in Hpass.
  apply pass_Returned_inv in Hpass as (Hw2 & Hresponses & _).
  simpl in *. by rewrite <-(assoc_L (++)) in Hw2.
Qed.

Lemma run_job_responses :
  w3 = World (calls w ++ ApiList :: (ApiDeleteTasks <$> to_delete)
                              ++ (ApiDelete <$> to_delete)) (stdout w) ∧
  job_responses =
    responses (on_delete client) ApiDelete
      (calls w ++ ApiList :: (ApiDeleteTasks <$> to_delete)) to_delete.
Proof.
  pose proof jobs_pass as Hpass.
  rewrite cleanup_jobs_pass, (proj1 run_task_responses) in Hpass.
  apply pass_Returned_inv in Hpass as (Hw3 & Hresponses & _).
  simpl in *. by rewrite <-(assoc_L (++)) in Hw3.
Qed.

Lemma run_fst_responses : task_responses.*1 = to_delete ∧ job_responses.*1 = to_delete.
Proof.
  rewrite (proj2 run_task_responses), (proj2 run_job_responses).
  by rewrite !responses_fst.
Qed.

(** The whole effect of such a run. *)
Lemma main_run :
  main O client service_job_pairs w =
  (World (calls w ++ ApiList :: (ApiDeleteTasks <$> to_delete)
                            ++ (ApiDelete <$> to_delete))
         (stdout w ++ report_stdout to_delete task_responses job_responses),
   if decide (to_delete ≠ [] ∧ Exists failed (task_responses ++ job_responses))
   then Raised SystemExit (PyInt 1)
   else Returned ()).
Proof.
  unfold main. cbv zeta.
  rewrite (bind_Returned _ _ _ _ _ discovery).
  rewrite (bind_Returned _ _ _ _ _ tasks_pass).
  rewrite (bind_Returned _ _ _ _ _ jobs_pass).
  rewrite !partition_responses_filter; simpl.
  rewrite (proj1 run_job_responses).
  destruct (jobs_to_delete O _ running_jobs) as [|job jobs] eqn:Hto_delete.
  - rewrite decide_True by done. rewrite decide_False by (by intros [? _]). done.
  - rewrite decide_False by done.
    repeat (erewrite bind_Returned by apply print_if_run); simpl.
    rewrite <-!(assoc_L (++)), <-!report_section_eq.
    unfold report_stdout.
    destruct (bool_decide_reflect (0 < length (filter failed job_responses))%nat)
      as [Hj|Hj]; rewrite filter_failed_Exists in Hj; simpl.
    + rewrite decide_True; [done|]. split; [done|]. apply Exists_app. by right.
    + destruct (bool_decide_reflect
                  (0 < length (filter failed task_responses))%nat)
        as [Ht|Ht]; rewrite filter_failed_Exists in Ht; simpl.
      * rewrite decide_True; [done|]. split; [done|]. apply Exists_app. by left.
      * rewrite decide_False; [done|]. rewrite Exists_app. tauto.
Qed.

End run.

(** * The claims of the specification *)

(** C3: for all expected jobs E and actual jobs A, [jobs_to_delete E A]
    contains exactly the elements of A that are not in E, contains no
    duplicates, is empty iff every element of A is in E, and its membership
    does not depend on the order of the inputs nor on repeated elements in
    them (inputs with the same elements give the same orphans). *)
Theorem jobs_to_delete_is_set_difference
    (O : PySetOps) (laws : PySetLaws O) (E A : list string) :
  (∀ job, job ∈ jobs_to_delete O E A ↔ job ∈ A ∧ job ∉ E) ∧
  NoDup (jobs_to_delete O E A) ∧
  (jobs_to_delete O E A = [] ↔ ∀ job, job ∈ A → job ∈ E) ∧
  (∀ E' A' : list string,
     (∀ job, job ∈ E' ↔ job ∈ E) → (∀ job, job ∈ A' ↔ job ∈ A) →
     ∀ job, job ∈ jobs_to_delete O E' A' ↔ job ∈ jobs_to_delete O E A).
Proof.
  split_and!.
  - intros job. apply elem_of_jobs_to_delete, laws.
  - apply NoDup_jobs_to_delete, laws.
  - apply jobs_to_delete_nil, laws.
  - intros E' A' HE HA job.
    by rewrite (jobs_to_delete_Permutation O E A E' A' HE HA).
Qed.

Lemma jobs_to_delete_is_set_difference_witness :
  PySetLaws gset_ops ∧
  (∀ job, job ∈ jobs_to_delete gset_ops ["x"; "x"] ["y"; "x"; "z"; "y"] ↔
          job ∈ ["y"; "x"; "z"; "y"] ∧ job ∉ ["x"; "x"]) ∧
  NoDup (jobs_to_delete gset_ops ["x"; "x"] ["y"; "x"; "z"; "y"]) ∧
  (jobs_to_delete gset_ops ["x"; "x"] ["y"; "x"; "z"; "y"] = [] ↔
   ∀ job, job ∈ ["y"; "x"; "z"; "y"] → job ∈ ["x"; "x"]) ∧
  (∀ E' A' : list string,
     (∀ job, job ∈ E' ↔ job ∈ ["x"; "x"]) →
     (∀ job, job ∈ A' ↔ job ∈ ["y"; "x"; "z"; "y"]) →
     ∀ job, job ∈ jobs_to_delete gset_ops E' A' ↔
            job ∈ jobs_to_delete gset_ops ["x"; "x"] ["y"; "x"; "z"; "y"]).
Proof.
  split; [exact gset_laws|].
  exact (jobs_to_delete_is_set_difference gset_ops gset_laws
           ["x"; "x"] ["y"; "x"; "z"; "y"]).
Defined.

(** C5, as the specification states it, fails: the list [jobs_to_delete]
    returns is not sorted by identifier.  On the set of CPython 2.7 the
    three running jobs a, b, c come out as a, c, b, and the orphans of the
    specification's own example (X expected; X, Y, Z running) come out as
    Z, Y; on the finite sets of stdpp, which satisfy [PySetLaws], a, b, c
    come out unsorted as well. *)
Lemma jobs_to_delete_not_sorted :
  jobs_to_delete CPython27.ops [] ["a"; "b"; "c"] = ["a"; "c"; "b"] ∧
  ¬ Sorted str_le (jobs_to_delete CPython27.ops [] ["a"; "b"; "c"]) ∧
  jobs_to_delete CPython27.ops ["svc.jobX"] ["svc.jobX"; "svc.jobY"; "svc.jobZ"]
    = ["svc.jobZ"; "svc.jobY"] ∧
  ¬ Sorted str_le (jobs_to_delete gset_ops [] ["a"; "b"; "c"]).
Proof.
  split_and!.
  - by vm_compute.
  - assert (jobs_to_delete CPython27.ops [] ["a"; "b"; "c"] = ["a"; "c"; "b"])
      as -> by by vm_compute.
    intros Hsorted. apply Sorted_inv in Hsorted as [Hsorted _].
    apply Sorted_inv in Hsorted as [_ Hcb]. by apply HdRel_inv in Hcb.
  - by vm_compute.
  - assert (jobs_to_delete gset_ops [] ["a"; "b"; "c"] = ["c"; "a"; "b"])
      as -> by by vm_compute.
    intros Hsorted. apply Sorted_inv in Hsorted as [_ Hca].
    by apply HdRel_inv in Hca.
Qed.

#[global] Instance reversed_gset_laws : PySetLaws reversed_gset_ops.
Proof.
  split; simpl.
  - intros s. rewrite reverse_Permutation. apply NoDup_elements.
  - intros l x. by rewrite elem_of_reverse, elem_of_elements, elem_of_list_to_set.
  - intros s t x.
    by rewrite !elem_of_reverse, !elem_of_elements, elem_of_difference.
Qed.

Lemma responses_by_job_only (respond : list api_call → string → completion pyval)
    (mk : string → api_call) (h : list api_call) (jobs : list string) :
  (∀ h h' job, respond h job = respond h' job) →
  responses respond mk h jobs =
  (λ job, (job, response_of (respond [] job))) <$> jobs.
Proof.
  intros Hrespond. revert h.
  induction jobs as [|job jobs IH]; intros h; simpl; [done|].
  by rewrite IH, (Hrespond h []).
Qed.

(** The order matters to the report as soon as the client's answers depend
    on the calls sent before: with a scheduler that is busy when the first
    deletion arrives, the failed task deletion is that of a under one
    iteration order and that of b under the other. *)
Lemma report_follows_the_iteration_order :
  stdout (main gset_ops busy_at_first_client [] (World [] [])).1 =
    [format_list_output "Successfully Removed Tasks (if any were running) for:" ["b"];
     format_list_output "Failed to Delete Tasks for:" ["a"];
     format_list_output "Successfully Removed Jobs:" ["a"; "b"]] ∧
  stdout (main reversed_gset_ops busy_at_first_client [] (World [] [])).1 =
    [format_list_output "Successfully Removed Tasks (if any were running) for:" ["a"];
     format_list_output "Failed to Delete Tasks for:" ["b"];
     format_list_output "Successfully Removed Jobs:" ["b"; "a"]].
Proof. split; by vm_compute. Qed.

(** C5, amended: the list [jobs_to_delete] returns is in the iteration
    order of the interpreter's set, which need not be sorted; it is a
    rearrangement of the orphaned identifiers sorted by value, and sorting
    it gives exactly that list, whatever order the set iterates in.  The
    report is determined by the inputs up to that order when the client's
    answer for a job does not depend on the calls sent before: two
    iteration orders then put the same responses into each of the four
    buckets and [main] ends the same way. *)
Theorem jobs_to_delete_sorted_up_to_order
    (O : PySetOps) (laws : PySetLaws O) (E A : list string) :
  jobs_to_delete O E A ≡ₚ sorted_orphans E A ∧
  StronglySorted str_le (sorted_orphans E A) ∧
  merge_sort str_le (jobs_to_delete O E A) = sorted_orphans E A ∧
  ∀ (O' : PySetOps) (laws' : PySetLaws O') client
    (pairs : list (string * string)) w w1 running
    w2 w3 tr jr w2' w3' tr' jr',
    answers_by_job_only client →
    running_job_names client w = (w1, Returned running) →
    cleanup_tasks client (jobs_to_delete O (expected_job_names pairs) running) w1
      = (w2, Returned tr) →
    cleanup_jobs client (jobs_to_delete O (expected_job_names pairs) running) w2
      = (w3, Returned jr) →
    cleanup_tasks client (jobs_to_delete O' (expected_job_names pairs) running) w1
      = (w2', Returned tr') →
    cleanup_jobs client (jobs_to_delete O' (expected_job_names pairs) running) w2'
      = (w3', Returned jr') →
    (partition_responses tr).1 ≡ₚ (partition_responses tr').1 ∧
    (partition_responses tr).2 ≡ₚ (partition_responses tr').2 ∧
    (partition_responses jr).1 ≡ₚ (partition_responses jr').1 ∧
    (partition_responses jr).2 ≡ₚ (partition_responses jr').2 ∧
    (main O client pairs w).2 = (main O' client pairs w).2.
Proof.
  split_and!.
  - apply jobs_to_delete_sorted_orphans, laws.
  - apply StronglySorted_merge_sort; apply _.
  - apply (StronglySorted_unique str_le).
    + apply StronglySorted_merge_sort; apply _.
    + apply StronglySorted_merge_sort; apply _.
    + rewrite merge_sort_Permutation.
      apply jobs_to_delete_sorted_orphans, laws.
  - intros O' laws' client pairs w w1 running w2 w3 tr jr w2' w3' tr' jr'
      Hclient Hlist Htasks Hjobs Htasks' Hjobs'.
    rewrite (main_run O client pairs w w1 w2 w3 running tr jr Hlist Htasks Hjobs).
    rewrite (main_run O' client pairs w w1 w2' w3' running tr' jr'
               Hlist Htasks' Hjobs').
    simpl.
    assert (jobs_to_delete O (expected_job_names pairs) running ≡ₚ
            jobs_to_delete O' (expected_job_names pairs) running) as Horder.
    { by rewrite !jobs_to_delete_sorted_orphans. }
    rewrite cleanup_tasks_pass in Htasks, Htasks'.
    rewrite cleanup_jobs_pass in Hjobs, Hjobs'.
    apply pass_Returned_inv in Htasks as (_ & -> & _).
    apply pass_Returned_inv in Hjobs as (_ & -> & _).
    apply pass_Returned_inv in Htasks' as (_ & -> & _).
    apply pass_Returned_inv in Hjobs' as (_ & -> & _).
    rewrite !(responses_by_job_only (on_delete_tasks client))
      by (intros h h' job; apply Hclient).
    rewrite !(responses_by_job_only (on_delete client))
      by (intros h h' job; apply Hclient).
    rewrite !partition_responses_filter. simpl.
    split_and!; try by rewrite Horder.
    assert (jobs_to_delete O (expected_job_names pairs) running ≠ [] ↔
            jobs_to_delete O' (expected_job_names pairs) running ≠ []) as Hne.
    { split; intros Hne Hnil; apply Hne; apply Permutation_nil_r;
        [rewrite Horder|rewrite <-Horder]; by rewrite Hnil. }
    destruct (decide (jobs_to_delete O _ running ≠ [] ∧ _)) as [Hd|Hd];
      destruct (decide (jobs_to_delete O' _ running ≠ [] ∧ _)) as [Hd'|Hd'];
      try done.
    + destruct Hd' as []. destruct Hd as [Hd1 Hd2].
      split; [by apply (proj1 Hne)|]. by rewrite <-Horder.
    + destruct Hd as []. destruct Hd' as [Hd1 Hd2].
      split; [by apply (proj2 Hne)|]. by rewrite Horder.
Qed.

Lemma jobs_to_delete_sorted_up_to_order_witness :
  PySetLaws gset_ops ∧
  jobs_to_delete gset_ops ["svc.jobX"] ["svc.jobX"; "svc.jobY"; "svc.jobZ"] ≡ₚ
    sorted_orphans ["svc.jobX"] ["svc.jobX"; "svc.jobY"; "svc.jobZ"] ∧
  StronglySorted str_le
    (sorted_orphans ["svc.jobX"] ["svc.jobX"; "svc.jobY"; "svc.jobZ"]) ∧
  merge_sort str_le
    (jobs_to_delete gset_ops ["svc.jobX"] ["svc.jobX"; "svc.jobY"; "svc.jobZ"]) =
    sorted_orphans ["svc.jobX"] ["svc.jobX"; "svc.jobY"; "svc.jobZ"] ∧
  PySetLaws reversed_gset_ops ∧
  answers_by_job_only example_client ∧
  cleanup_tasks example_client
    (jobs_to_delete reversed_gset_ops (expected_job_names [("svc", "svc.jobX")])
       ["svc.jobX"; "svc.jobY"; "svc.jobZ"])
    (World [ApiList] []) =
    (World [ApiList; ApiDeleteTasks "svc.jobZ"; ApiDeleteTasks "svc.jobY"] [],
     Returned [("svc.jobZ", PyExc Exception (PyStr "boom"));
               ("svc.jobY", PyNone)]) ∧
  (main gset_ops example_client [("svc", "svc.jobX")] (World [] [])).2 =
  (main reversed_gset_ops example_client [("svc", "svc.jobX")] (World [] [])).2.
Proof.
  assert (answers_by_job_only example_client) as Hclient
    by (intros h h' job; split; reflexivity).
  assert (running_job_names example_client (World [] []) =
    (World [ApiList] [], Returned ["svc.jobX"; "svc.jobY"; "svc.jobZ"]))
    as Hlist by (vm_compute; reflexivity).
  assert (cleanup_tasks example_client
    (jobs_to_delete gset_ops (expected_job_names [("svc", "svc.jobX")])
       ["svc.jobX"; "svc.jobY"; "svc.jobZ"])
    (World [ApiList] []) =
    (World [ApiList; ApiDeleteTasks "svc.jobY"; ApiDeleteTasks "svc.jobZ"] [],
     Returned [("svc.jobY", PyNone);
               ("svc.jobZ", PyExc Exception (PyStr "boom"))]))
    as Htasks by (vm_compute; reflexivity).
  assert (cleanup_jobs example_client
    (jobs_to_delete gset_ops (expected_job_names [("svc", "svc.jobX")])
       ["svc.jobX"; "svc.jobY"; "svc.jobZ"])
    (World [ApiList; ApiDeleteTasks "svc.jobY"; ApiDeleteTasks "svc.jobZ"] []) =
    (World [ApiList; ApiDeleteTasks "svc.jobY"; ApiDeleteTasks "svc.jobZ";
            ApiDelete "svc.jobY"; ApiDelete "svc.jobZ"] [],
     Returned [("svc.jobY", PyNone); ("svc.jobZ", PyNone)]))
    as Hjobs by (vm_compute; reflexivity).
  assert (cleanup_tasks example_client
    (jobs_to_delete reversed_gset_ops (expected_job_names [("svc", "svc.jobX")])
       ["svc.jobX"; "svc.jobY"; "svc.jobZ"])
    (World [ApiList] []) =
    (World [ApiList; ApiDeleteTasks "svc.jobZ"; ApiDeleteTasks "svc.jobY"] [],
     Returned [("svc.jobZ", PyExc Exception (PyStr "boom"));
               ("svc.jobY", PyNone)]))
    as Htasks' by (vm_compute; reflexivity).
  assert (cleanup_jobs example_client
    (jobs_to_delete reversed_gset_ops (expected_job_names [("svc", "svc.jobX")])
       ["svc.jobX"; "svc.jobY"; "svc.jobZ"])
    (World [ApiList; ApiDeleteTasks "svc.jobZ"; ApiDeleteTasks "svc.jobY"] []) =
    (World [ApiList; ApiDeleteTasks "svc.jobZ"; ApiDeleteTasks "svc.jobY";
            ApiDelete "svc.jobZ"; ApiDelete "svc.jobY"] [],
     Returned [("svc.jobZ", PyNone); ("svc.jobY", PyNone)]))
    as Hjobs' by (vm_compute; reflexivity).
  destruct (jobs_to_delete_sorted_up_to_order gset_ops gset_laws
              ["svc.jobX"] ["svc.jobX"; "svc.jobY"; "svc.jobZ"])
    as (Hperm & Hsorted & Hsort & Hreport).
  split; [exact gset_laws|].
  split; [exact Hperm|]. split; [exact Hsorted|]. split; [exact Hsort|].
  split; [exact reversed_gset_laws|]. split; [exact Hclient|].
  split; [exact Htasks'|].
  exact (proj2 (proj2 (proj2 (proj2
           (Hreport reversed_gset_ops reversed_gset_laws example_client
              [("svc", "svc.jobX")] _ _ _ _ _ _ _ _ _ _ _
              Hclient Hlist Htasks Hjobs Htasks' Hjobs'))))).
Defined.

(** ** Helpers on lists of responses *)

Lemma filter_fst_length (job : string) (l : list (string * pyval)) :
  NoDup l.*1 → job ∈ l.*1 → length (filter (λ r, r.1 = job) l) = 1%nat.
Proof.
  induction l as [|r l IH]; simpl.
  - by intros _ ?%elem_of_nil.
  - rewrite NoDup_cons, elem_of_cons, filter_cons. intros [Hr Hl] Hjob.
    case_decide as Heq.
    + subst job. simpl. f_equal. apply length_zero_iff_nil.
      destruct (filter _ l) as [|r' l'] eqn:Hfilter; [done|].
      assert (r' ∈ filter (λ r0, r0.1 = r.1) l) as Hin by (rewrite Hfilter; left).
      apply list_elem_of_filter in Hin as [Heq Hin].
      destruct Hr. rewrite <-Heq. by apply list_elem_of_fmap_2.
    + destruct Hjob as [->|Hjob]; [done|]. by apply IH.
Qed.

Lemma filter_failed_singleton (r0 : string * pyval) (l : list (string * pyval)) :
  NoDup l.*1 → r0 ∈ l → failed r0 →
  (∀ r, r ∈ l → r.1 ≠ r0.1 → succeeded r) →
  filter failed l = [r0] ∧ r0.1 ∉ (filter succeeded l).*1.
Proof.
  induction l as [|r l IH]; simpl.
  - by intros _ ?%elem_of_nil.
  - rewrite NoDup_cons, elem_of_cons, !filter_cons.
    intros [Hr Hl] Hin Hfailed Hothers.
    assert (∀ r', r' ∈ l → r'.1 ≠ r.1) as Hfresh.
    { intros r' Hr' Heq. destruct Hr. rewrite <-Heq. by apply list_elem_of_fmap_2. }
    destruct Hin as [->|Hin].
    + rewrite decide_True by done.
      rewrite decide_False by (by intros Hs%succeeded_not_failed).
      assert (Forall succeeded l) as Hall.
      { apply Forall_forall. intros r' Hr'. apply Hothers; [by right|by apply Hfresh]. }
      split.
      * f_equal. by apply filter_failed_nil.
      * intros (r' & Heq & Hr')%list_elem_of_fmap.
        apply list_elem_of_filter in Hr' as [_ Hr']. by eapply Hfresh.
    + assert (succeeded r) as Hsucc.
      { apply Hothers; [by left|]. intros Heq. by eapply Hfresh. }
      rewrite decide_False by (by intros Hf; apply succeeded_not_failed in Hsucc).
      rewrite decide_True by done.
      destruct IH as [IH1 IH2]; try done.
      { intros r' Hr'. apply Hothers. by right. }
      split; [done|]. rewrite fmap_cons, not_elem_of_cons. split; [|done].
      intros Heq. by eapply Hfresh.
Qed.

(** A run reaches the report whenever the client answers [list] and raises
    nothing but instances of [Exception]. *)
Lemma main_reaches_report O client (pairs : list (string * string)) w w1 running :
  raises_only_Exception client →
  running_job_names client w = (w1, Returned running) →
  ∃ w2 w3 tr jr,
    cleanup_tasks client (jobs_to_delete O (expected_job_names pairs) running) w1
      = (w2, Returned tr) ∧
    cleanup_jobs client (jobs_to_delete O (expected_job_names pairs) running) w2
      = (w3, Returned jr).
Proof.
  intros Hclient _. eexists _, _, _, _. split.
  - rewrite cleanup_tasks_pass. apply pass_Returned.
    by apply raises_only_Exception_all_caught.
  - rewrite cleanup_jobs_pass. apply pass_Returned.
    by apply raises_only_Exception_all_caught.
Qed.

(** C1: the exit status of the process is 0 if the orphan set is empty, or
    if it is not empty and every task deletion and every job deletion
    succeeded; it is 1 if the orphan set is not empty and at least one task
    deletion or job deletion failed. *)
Theorem main_exit_status O client (pairs : list (string * string))
    w w1 w2 w3 running tr jr :
  running_job_names client w = (w1, Returned running) →
  cleanup_tasks client (jobs_to_delete O (expected_job_names pairs) running) w1
    = (w2, Returned tr) →
  cleanup_jobs client (jobs_to_delete O (expected_job_names pairs) running) w2
    = (w3, Returned jr) →
  (jobs_to_delete O (expected_job_names pairs) running = [] →
   exit_status (main O client pairs w).2 = 0%Z) ∧
  (jobs_to_delete O (expected_job_names pairs) running ≠ [] →
   Forall succeeded (tr ++ jr) →
   exit_status (main O client pairs w).2 = 0%Z) ∧
  (jobs_to_delete O (expected_job_names pairs) running ≠ [] →
   Exists failed (tr ++ jr) →
   exit_status (main O client pairs w).2 = 1%Z).
Proof.
  intros Hlist Htasks Hjobs.
  rewrite (main_run O client pairs w w1 w2 w3 running tr jr Hlist Htasks Hjobs).
  simpl. split_and!.
  - intros Hnil. rewrite decide_False; [done|]. by intros [? _].
  - intros _ Hall. rewrite decide_False; [done|]. intros [_ Hex].
    apply Exists_exists in Hex as (r & Hr & Hfailed).
    rewrite Forall_forall in Hall. by apply Hall, succeeded_not_failed in Hr.
  - intros Hne Hex. by rewrite decide_True.
Qed.

Lemma main_exit_status_witness :
  running_job_names example_client (World [] []) =
    (World [ApiList] [], Returned ["svc.jobX"; "svc.jobY"; "svc.jobZ"]) ∧
  cleanup_tasks example_client
    (jobs_to_delete gset_ops (expected_job_names [("svc", "svc.jobX")])
       ["svc.jobX"; "svc.jobY"; "svc.jobZ"])
    (World [ApiList] []) =
    (World [ApiList; ApiDeleteTasks "svc.jobY"; ApiDeleteTasks "svc.jobZ"] [],
     Returned [("svc.jobY", PyNone);
               ("svc.jobZ", PyExc Exception (PyStr "boom"))]) ∧
  cleanup_jobs example_client
    (jobs_to_delete gset_ops (expected_job_names [("svc", "svc.jobX")])
       ["svc.jobX"; "svc.jobY"; "svc.jobZ"])
    (World [ApiList; ApiDeleteTasks "svc.jobY"; ApiDeleteTasks "svc.jobZ"] []) =
    (World [ApiList; ApiDeleteTasks "svc.jobY"; ApiDeleteTasks "svc.jobZ";
            ApiDelete "svc.jobY"; ApiDelete "svc.jobZ"] [],
     Returned [("svc.jobY", PyNone); ("svc.jobZ", PyNone)]) ∧
  exit_status
    (main gset_ops example_client [("svc", "svc.jobX")] (World [] [])).2 = 1%Z.
Proof.
  assert (running_job_names example_client (World [] []) =
    (World [ApiList] [], Returned ["svc.jobX"; "svc.jobY"; "svc.jobZ"]))
    as Hlist by (vm_compute; reflexivity).
  assert (cleanup_tasks example_client
    (jobs_to_delete gset_ops (expected_job_names [("svc", "svc.jobX")])
       ["svc.jobX"; "svc.jobY"; "svc.jobZ"])
    (World [ApiList] []) =
    (World [ApiList; ApiDeleteTasks "svc.jobY"; ApiDeleteTasks "svc.jobZ"] [],
     Returned [("svc.jobY", PyNone);
               ("svc.jobZ", PyExc Exception (PyStr "boom"))]))
    as Htasks by (vm_compute; reflexivity).
  assert (cleanup_jobs example_client
    (jobs_to_delete gset_ops (expected_job_names [("svc", "svc.jobX")])
       ["svc.jobX"; "svc.jobY"; "svc.jobZ"])
    (World [ApiList; ApiDeleteTasks "svc.jobY"; ApiDeleteTasks "svc.jobZ"] []) =
    (World [ApiList; ApiDeleteTasks "svc.jobY"; ApiDeleteTasks "svc.jobZ";
            ApiDelete "svc.jobY"; ApiDelete "svc.jobZ"] [],
     Returned [("svc.jobY", PyNone); ("svc.jobZ", PyNone)]))
    as Hjobs by (vm_compute; reflexivity).
  split_and!; [done..|].
  apply (main_exit_status _ _ _ _ _ _ _ _ _ _ Hlist Htasks Hjobs).
  - by vm_compute.
  - apply Exists_cons_tl, Exists_cons_hd. reflexivity.
Defined.

(** C7: if the orphan set is empty, no [delete] and no [delete_tasks] call
    is sent to the client (the only call of the run is [list]), the run ends
    with exit status 0, and the output is the one line
    "No Chronos Jobs to remove", with no bucket section. *)
Theorem no_orphans_nothing_to_do O client (pairs : list (string * string))
    w w1 running :
  running_job_names client w = (w1, Returned running) →
  jobs_to_delete O (expected_job_names pairs) running = [] →
  cleanup_tasks client (jobs_to_delete O (expected_job_names pairs) running) w1
    = (w1, Returned []) ∧
  cleanup_jobs client (jobs_to_delete O (expected_job_names pairs) running) w1
    = (w1, Returned []) ∧
  main O client pairs w =
    (World (calls w ++ [ApiList]) (stdout w ++ ["No Chronos Jobs to remove"]),
     Returned ()) ∧
  exit_status (main O client pairs w).2 = 0%Z.
Proof.
  intros Hlist Hnil.
  assert (cleanup_tasks client
            (jobs_to_delete O (expected_job_names pairs) running) w1
          = (w1, Returned [])) as Htasks by by rewrite Hnil.
  assert (cleanup_jobs client
            (jobs_to_delete O (expected_job_names pairs) running) w1
          = (w1, Returned [])) as Hjobs by by rewrite Hnil.
  split_and!; [done..| |];
    rewrite (main_run O client pairs w w1 w1 w1 running [] [] Hlist Htasks Hjobs);
    rewrite Hnil; simpl; done.
Qed.

Lemma no_orphans_nothing_to_do_witness :
  running_job_names example_client (World [] []) =
    (World [ApiList] [], Returned ["svc.jobX"; "svc.jobY"; "svc.jobZ"]) ∧
  jobs_to_delete CPython27.ops
    (expected_job_names [("svc", "svc.jobZ"); ("svc", "svc.jobY");
                         ("svc", "svc.jobX"); ("other", "other.job")])
    ["svc.jobX"; "svc.jobY"; "svc.jobZ"] = [] ∧
  main CPython27.ops example_client
    [("svc", "svc.jobZ"); ("svc", "svc.jobY");
     ("svc", "svc.jobX"); ("other", "other.job")] (World [] []) =
    (World [ApiList] ["No Chronos Jobs to remove"], Returned ()).
Proof.
  assert (running_job_names example_client (World [] []) =
    (World [ApiList] [], Returned ["svc.jobX"; "svc.jobY"; "svc.jobZ"]))
    as Hlist by (vm_compute; reflexivity).
  assert (jobs_to_delete CPython27.ops
    (expected_job_names [("svc", "svc.jobZ"); ("svc", "svc.jobY");
                         ("svc", "svc.jobX"); ("other", "other.job")])
    ["svc.jobX"; "svc.jobY"; "svc.jobZ"] = [])
    as Hnil by (vm_compute; reflexivity).
  split_and!; [done..|].
  apply (no_orphans_nothing_to_do _ _ _ _ _ _ Hlist Hnil).
Defined.

#[global] Instance ApiDeleteTasks_inj : Inj (=) (=) ApiDeleteTasks.
Proof. by intros job job' [= ->]. Qed.

#[global] Instance ApiDelete_inj : Inj (=) (=) ApiDelete.
Proof. by intros job job' [= ->]. Qed.

Lemma filter_eq_length `{EqDecision A} (x : A) (l : list A) :
  NoDup l → x ∈ l → length (filter (λ y, y = x) l) = 1%nat.
Proof.
  induction l as [|y l IH]; simpl.
  - by intros _ ?%elem_of_nil.
  - rewrite NoDup_cons, elem_of_cons, filter_cons. intros [Hy Hl] Hx.
    case_decide as Heq.
    + subst y. simpl. f_equal. apply length_zero_iff_nil.
      destruct (filter _ l) as [|z l'] eqn:Hfilter; [done|].
      assert (z ∈ filter (λ y, y = x) l) as Hin by (rewrite Hfilter; left).
      apply list_elem_of_filter in Hin as [-> Hin]. by destruct Hy.
    + destruct Hx as [->|Hx]; [done|]. by apply IH.
Qed.

Lemma batches_NoDup (jobs : list string) :
  NoDup jobs →
  NoDup (ApiList :: (ApiDeleteTasks <$> jobs) ++ (ApiDelete <$> jobs)).
Proof.
  intros Hjobs. apply NoDup_cons. split.
  - intros [Hin|Hin]%elem_of_app;
      by apply list_elem_of_fmap in Hin as (job & ? & _).
  - apply NoDup_app. split_and!.
    + by apply (NoDup_fmap_2 _).
    + intros call (job & -> & _)%list_elem_of_fmap Hin.
      by apply list_elem_of_fmap in Hin as (job' & ? & _).
    + by apply (NoDup_fmap_2 _).
Qed.

Lemma partition_responses_Permutation (responses : list (string * pyval)) :
  (partition_responses responses).1 ++ (partition_responses responses).2
    ≡ₚ responses.
Proof.
  rewrite partition_responses_filter. simpl.
  induction responses as [|r responses IH]; [done|].
  rewrite !filter_cons.
  destruct (decide (succeeded r)) as [Hs|Hs].
  - rewrite decide_False by (by apply succeeded_not_failed).
    simpl. by rewrite IH.
  - rewrite decide_True.
    + by rewrite <-Permutation_middle, IH.
    + unfold succeeded, failed in *. by destruct (isinstance_Exception r.2).
Qed.

(** C8: no job identifier appears twice in the clean-up work list, and in
    a run every job identifier of the orphan set gets exactly one task
    deletion and exactly one job deletion with exactly one recorded outcome
    each: [main] sends one [delete_tasks] and one [delete] call for it, the
    responses it builds its report from hold one entry for it per pass, and
    that entry is in exactly one of the two buckets of the pass. *)
Theorem one_outcome_per_orphan O (laws : PySetLaws O) client
    (pairs : list (string * string)) w w1 w2 w3 running tr jr :
  running_job_names client w = (w1, Returned running) →
  cleanup_tasks client (jobs_to_delete O (expected_job_names pairs) running) w1
    = (w2, Returned tr) →
  cleanup_jobs client (jobs_to_delete O (expected_job_names pairs) running) w2
    = (w3, Returned jr) →
  NoDup (jobs_to_delete O (expected_job_names pairs) running) ∧
  main O client pairs w =
    (World (calls w ++ ApiList
              :: (ApiDeleteTasks <$> jobs_to_delete O (expected_job_names pairs) running)
              ++ (ApiDelete <$> jobs_to_delete O (expected_job_names pairs) running))
           (stdout w ++
            report_stdout (jobs_to_delete O (expected_job_names pairs) running) tr jr),
     if decide (jobs_to_delete O (expected_job_names pairs) running ≠ [] ∧
                Exists failed (tr ++ jr))
     then Raised SystemExit (PyInt 1)
     else Returned ()) ∧
  tr.*1 = jobs_to_delete O (expected_job_names pairs) running ∧
  jr.*1 = jobs_to_delete O (expected_job_names pairs) running ∧
  ∀ job, job ∈ jobs_to_delete O (expected_job_names pairs) running →
    length (filter (λ call, call = ApiDeleteTasks job)
              (drop (length (calls w)) (calls (main O client pairs w).1))) = 1%nat ∧
    length (filter (λ call, call = ApiDelete job)
              (drop (length (calls w)) (calls (main O client pairs w).1))) = 1%nat ∧
    length (filter (λ r, r.1 = job) tr) = 1%nat ∧
    length (filter (λ r, r.1 = job) jr) = 1%nat ∧
    length (filter (λ r, r.1 = job)
              ((partition_responses tr).1 ++ (partition_responses tr).2)) = 1%nat ∧
    length (filter (λ r, r.1 = job)
              ((partition_responses jr).1 ++ (partition_responses jr).2)) = 1%nat.
Proof.
  intros Hlist Htasks Hjobs.
  pose proof (NoDup_jobs_to_delete O (expected_job_names pairs) running) as Hnodup.
  destruct (run_fst_responses O client pairs w w1 w2 w3 running tr jr
              Hlist Htasks Hjobs) as [Htr Hjr].
  pose proof (main_run O client pairs w w1 w2 w3 running tr jr
                Hlist Htasks Hjobs) as Hmain.
  split_and!; [done..|].
  intros job Hjob. rewrite Hmain. simpl. rewrite drop_app_length.
  rewrite !partition_responses_Permutation.
  split_and!.
  - apply filter_eq_length; [by apply batches_NoDup|].
    right. apply elem_of_app. left. by apply list_elem_of_fmap_2.
  - apply filter_eq_length; [by apply batches_NoDup|].
    right. apply elem_of_app. right. by apply list_elem_of_fmap_2.
  - apply filter_fst_length; by rewrite Htr.
  - apply filter_fst_length; by rewrite Hjr.
  - apply filter_fst_length; by rewrite Htr.
  - apply filter_fst_length; by rewrite Hjr.
Qed.

Lemma one_outcome_per_orphan_witness :
  PySetLaws gset_ops ∧
  running_job_names example_client (World [] []) =
    (World [ApiList] [], Returned ["svc.jobX"; "svc.jobY"; "svc.jobZ"]) ∧
  cleanup_tasks example_client
    (jobs_to_delete gset_ops (expected_job_names [("svc", "svc.jobX")])
       ["svc.jobX"; "svc.jobY"; "svc.jobZ"])
    (World [ApiList] []) =
    (World [ApiList; ApiDeleteTasks "svc.jobY"; ApiDeleteTasks "svc.jobZ"] [],
     Returned [("svc.jobY", PyNone);
               ("svc.jobZ", PyExc Exception (PyStr "boom"))]) ∧
  cleanup_jobs example_client
    (jobs_to_delete gset_ops (expected_job_names [("svc", "svc.jobX")])
       ["svc.jobX"; "svc.jobY"; "svc.jobZ"])
    (World [ApiList; ApiDeleteTasks "svc.jobY"; ApiDeleteTasks "svc.jobZ"] []) =
    (World [ApiList; ApiDeleteTasks "svc.jobY"; ApiDeleteTasks "svc.jobZ";
            ApiDelete "svc.jobY"; ApiDelete "svc.jobZ"] [],
     Returned [("svc.jobY", PyNone); ("svc.jobZ", PyNone)]) ∧
  NoDup (jobs_to_delete gset_ops (expected_job_names [("svc", "svc.jobX")])
           ["svc.jobX"; "svc.jobY"; "svc.jobZ"]) ∧
  "svc.jobZ" ∈ jobs_to_delete gset_ops (expected_job_names [("svc", "svc.jobX")])
                 ["svc.jobX"; "svc.jobY"; "svc.jobZ"] ∧
  length (filter (λ call, call = ApiDeleteTasks "svc.jobZ")
            (drop (length (calls (World [] [])))
               (calls (main gset_ops example_client [("svc", "svc.jobX")]
                         (World [] [])).1))) = 1%nat ∧
  length (filter (λ call, call = ApiDelete "svc.jobZ")
            (drop (length (calls (World [] [])))
               (calls (main gset_ops example_client [("svc", "svc.jobX")]
                         (World [] [])).1))) = 1%nat.
Proof.
  assert ("svc.jobZ" ∈ jobs_to_delete gset_ops
            (expected_job_names [("svc", "svc.jobX")])
            ["svc.jobX"; "svc.jobY"; "svc.jobZ"]) as Hjob.
  { apply (elem_of_jobs_to_delete gset_ops). split.
    - right. right. left.
    - intros Hin. apply list_elem_of_singleton in Hin. discriminate Hin. }
  assert (running_job_names example_client (World [] []) =
    (World [ApiList] [], Returned ["svc.jobX"; "svc.jobY"; "svc.jobZ"]))
    as Hlist by (vm_compute; reflexivity).
  assert (cleanup_tasks example_client
    (jobs_to_delete gset_ops (expected_job_names [("svc", "svc.jobX")])
       ["svc.jobX"; "svc.jobY"; "svc.jobZ"])
    (World [ApiList] []) =
    (World [ApiList; ApiDeleteTasks "svc.jobY"; ApiDeleteTasks "svc.jobZ"] [],
     Returned [("svc.jobY", PyNone);
               ("svc.jobZ", PyExc Exception (PyStr "boom"))]))
    as Htasks by (vm_compute; reflexivity).
  assert (cleanup_jobs example_client
    (jobs_to_delete gset_ops (expected_job_names [("svc", "svc.jobX")])
       ["svc.jobX"; "svc.jobY"; "svc.jobZ"])
    (World [ApiList; ApiDeleteTasks "svc.jobY"; ApiDeleteTasks "svc.jobZ"] []) =
    (World [ApiList; ApiDeleteTasks "svc.jobY"; ApiDeleteTasks "svc.jobZ";
            ApiDelete "svc.jobY"; ApiDelete "svc.jobZ"] [],
     Returned [("svc.jobY", PyNone); ("svc.jobZ", PyNone)]))
    as Hjobs by (vm_compute; reflexivity).
  destruct (one_outcome_per_orphan gset_ops gset_laws _ _ _ _ _ _ _ _ _
              Hlist Htasks Hjobs) as (Hnodup & _ & _ & _ & Hone).
  destruct (Hone "svc.jobZ" Hjob) as (Htask_call & Hjob_call & _).
  split; [exact gset_laws|].
  split; [exact Hlist|]. split; [exact Htasks|]. split; [exact Hjobs|].
  split; [exact Hnodup|]. split; [exact Hjob|].
  split; [exact Htask_call|exact Hjob_call].
Defined.

(** C6: the job deletion of every orphan is attempted whatever the outcome
    of its task deletion.  In particular, when the task deletion of exactly
    one job fails and every other call succeeds, that job is the only entry
    of the task-failure bucket, it is in no other failure bucket and not in
    the task-success bucket, its [delete] call is still sent, it is in the
    job-success bucket, and the exit status is 1. *)
Theorem job_deletion_attempted_after_task_failure O (laws : PySetLaws O) client
    (pairs : list (string * string)) w w1 w2 w3 running tr jr :
  running_job_names client w = (w1, Returned running) →
  cleanup_tasks client (jobs_to_delete O (expected_job_names pairs) running) w1
    = (w2, Returned tr) →
  cleanup_jobs client (jobs_to_delete O (expected_job_names pairs) running) w2
    = (w3, Returned jr) →
  (∀ job, job ∈ jobs_to_delete O (expected_job_names pairs) running →
     job ∈ tr.*1 ∧ job ∈ jr.*1 ∧
     ApiDelete job ∈ drop (length (calls w)) (calls (main O client pairs w).1)) ∧
  (∀ job0 e,
     (job0, e) ∈ tr → failed (job0, e) →
     (∀ r, r ∈ tr → r.1 ≠ job0 → succeeded r) →
     Forall succeeded jr →
     (partition_responses tr).2 = [(job0, e)] ∧
     (job0 ∉ ((partition_responses tr).1).*1) ∧
     (partition_responses jr).2 = [] ∧
     job0 ∈ ((partition_responses jr).1).*1 ∧
     ApiDelete job0 ∈ drop (length (calls w)) (calls (main O client pairs w).1) ∧
     format_list_output "Failed to Delete Tasks for:" [job0]
       ∈ stdout (main O client pairs w).1 ∧
     exit_status (main O client pairs w).2 = 1%Z).
Proof.
  intros Hlist Htasks Hjobs.
  pose proof (NoDup_jobs_to_delete O (expected_job_names pairs) running) as Hnodup.
  destruct (run_fst_responses O client pairs w w1 w2 w3 running tr jr
              Hlist Htasks Hjobs) as [Htr Hjr].
  rewrite (main_run O client pairs w w1 w2 w3 running tr jr Hlist Htasks Hjobs).
  simpl. rewrite drop_app_length.
  assert (∀ job, job ∈ jobs_to_delete O (expected_job_names pairs) running →
            ApiDelete job ∈ ApiList
              :: (ApiDeleteTasks <$> jobs_to_delete O (expected_job_names pairs) running)
              ++ (ApiDelete <$> jobs_to_delete O (expected_job_names pairs) running))
    as Hsent.
  { intros job Hjob. right. apply elem_of_app. right.
    by apply list_elem_of_fmap_2. }
  split.
  { intros job Hjob. rewrite Htr, Hjr. split_and!; [done..|]. by apply Hsent. }
  intros job0 e Hin Hfailed Hothers Hsucceeded.
  assert (job0 ∈ jobs_to_delete O (expected_job_names pairs) running) as Hjob0.
  { rewrite <-Htr. by apply (list_elem_of_fmap_2 fst) in Hin. }
  rewrite !partition_responses_filter; simpl.
  rewrite <-Htr in Hnodup.
  destruct (filter_failed_singleton (job0, e) tr Hnodup Hin Hfailed Hothers)
    as [Htf Hts].
  assert (filter failed jr = []) as Hjf by by apply filter_failed_nil.
  split_and!; [done..| | | |].
  - rewrite <-Hjr in Hjob0.
    apply list_elem_of_fmap in Hjob0 as (r & -> & Hr).
    apply list_elem_of_fmap_2, list_elem_of_filter. split; [|done].
    rewrite Forall_forall in Hsucceeded. by apply Hsucceeded.
  - by apply Hsent.
  - unfold report_stdout.
    destruct (jobs_to_delete O _ running) as [|job jobs]; [by apply elem_of_nil in Hjob0|].
    rewrite Htf. simpl. rewrite !elem_of_app, elem_of_cons. tauto.
  - rewrite decide_True; [done|]. split.
    + intros Hnil. rewrite Hnil in Hjob0. by apply elem_of_nil in Hjob0.
    + apply Exists_app. left. apply Exists_exists. by exists (job0, e).
Qed.

Lemma job_deletion_attempted_after_task_failure_witness :
  PySetLaws gset_ops ∧
  running_job_names example_client (World [] []) =
    (World [ApiList] [], Returned ["svc.jobX"; "svc.jobY"; "svc.jobZ"]) ∧
  cleanup_tasks example_client
    (jobs_to_delete gset_ops (expected_job_names [("svc", "svc.jobX")])
       ["svc.jobX"; "svc.jobY"; "svc.jobZ"])
    (World [ApiList] []) =
    (World [ApiList; ApiDeleteTasks "svc.jobY"; ApiDeleteTasks "svc.jobZ"] [],
     Returned [("svc.jobY", PyNone);
               ("svc.jobZ", PyExc Exception (PyStr "boom"))]) ∧
  cleanup_jobs example_client
    (jobs_to_delete gset_ops (expected_job_names [("svc", "svc.jobX")])
       ["svc.jobX"; "svc.jobY"; "svc.jobZ"])
    (World [ApiList; ApiDeleteTasks "svc.jobY"; ApiDeleteTasks "svc.jobZ"] []) =
    (World [ApiList; ApiDeleteTasks "svc.jobY"; ApiDeleteTasks "svc.jobZ";
            ApiDelete "svc.jobY"; ApiDelete "svc.jobZ"] [],
     Returned [("svc.jobY", PyNone); ("svc.jobZ", PyNone)]) ∧
  (partition_responses
     [("svc.jobY", PyNone); ("svc.jobZ", PyExc Exception (PyStr "boom"))]).2
    = [("svc.jobZ", PyExc Exception (PyStr "boom"))] ∧
  "svc.jobZ" ∈ ((partition_responses
                   [("svc.jobY", PyNone); ("svc.jobZ", PyNone)]).1).*1 ∧
  exit_status
    (main gset_ops example_client [("svc", "svc.jobX")] (World [] [])).2 = 1%Z.
Proof.
  assert (("svc.jobZ", PyExc Exception (PyStr "boom")) ∈
            [("svc.jobY", PyNone); ("svc.jobZ", PyExc Exception (PyStr "boom"))])
    as Hin by (right; left).
  assert (failed ("svc.jobZ", PyExc Exception (PyStr "boom")))
    as Hfailed by reflexivity.
  assert (∀ r : string * pyval,
            r ∈ [("svc.jobY", PyNone); ("svc.jobZ", PyExc Exception (PyStr "boom"))] →
            r.1 ≠ "svc.jobZ" → succeeded r) as Hothers.
  { intros r Hr Hne. apply elem_of_cons in Hr as [->|Hr]; [reflexivity|].
    apply elem_of_cons in Hr as [->|Hr]; [by destruct Hne|].
    by apply elem_of_nil in Hr. }
  assert (Forall succeeded [("svc.jobY", PyNone); ("svc.jobZ", PyNone)])
    as Hsucceeded by (apply Forall_cons; split; [|apply Forall_cons; split];
                      [reflexivity|reflexivity|apply Forall_nil_2]).
  assert (running_job_names example_client (World [] []) =
    (World [ApiList] [], Returned ["svc.jobX"; "svc.jobY"; "svc.jobZ"]))
    as Hlist by (vm_compute; reflexivity).
  assert (cleanup_tasks example_client
    (jobs_to_delete gset_ops (expected_job_names [("svc", "svc.jobX")])
       ["svc.jobX"; "svc.jobY"; "svc.jobZ"])
    (World [ApiList] []) =
    (World [ApiList; ApiDeleteTasks "svc.jobY"; ApiDeleteTasks "svc.jobZ"] [],
     Returned [("svc.jobY", PyNone);
               ("svc.jobZ", PyExc Exception (PyStr "boom"))]))
    as Htasks by (vm_compute; reflexivity).
  assert (cleanup_jobs example_client
    (jobs_to_delete gset_ops (expected_job_names [("svc", "svc.jobX")])
       ["svc.jobX"; "svc.jobY"; "svc.jobZ"])
    (World [ApiList; ApiDeleteTasks "svc.jobY"; ApiDeleteTasks "svc.jobZ"] []) =
    (World [ApiList; ApiDeleteTasks "svc.jobY"; ApiDeleteTasks "svc.jobZ";
            ApiDelete "svc.jobY"; ApiDelete "svc.jobZ"] [],
     Returned [("svc.jobY", PyNone); ("svc.jobZ", PyNone)]))
    as Hjobs by (vm_compute; reflexivity).
  pose proof (proj2 (job_deletion_attempted_after_task_failure gset_ops gset_laws
                       _ _ _ _ _ _ _ _ _ Hlist Htasks Hjobs)
                "svc.jobZ" (PyExc Exception (PyStr "boom"))
                Hin Hfailed Hothers Hsucceeded)
    as (Htf & _ & _ & Hjs & _ & _ & Hstatus).
  split; [exact gset_laws|].
  split; [exact Hlist|]. split; [exact Htasks|]. split; [exact Hjobs|].
  split; [exact Htf|]. split; [exact Hjs|exact Hstatus].
Defined.

(** C9: [cleanup_tasks client jobs] and [cleanup_jobs client jobs] each
    return a list as long as [jobs] whose i-th element is the pair of
    [jobs[i]] and the outcome of the call for that job, in the order of
    [jobs].  They return exactly when no call raises an exception that the
    wrapper lets through, and have then sent one call per job. *)
Theorem cleanup_returns_one_pair_per_job client (jobs : list string) w :
  (all_caught (on_delete_tasks client) ApiDeleteTasks (calls w) jobs →
   ∃ l,
     cleanup_tasks client jobs w =
       (World (calls w ++ (ApiDeleteTasks <$> jobs)) (stdout w), Returned l) ∧
     length l = length jobs ∧
     ∀ i job, jobs !! i = Some job →
       l !! i =
       Some (job, response_of (on_delete_tasks client
                                 (calls w ++ (ApiDeleteTasks <$> take i jobs)) job))) ∧
  (all_caught (on_delete client) ApiDelete (calls w) jobs →
   ∃ l,
     cleanup_jobs client jobs w =
       (World (calls w ++ (ApiDelete <$> jobs)) (stdout w), Returned l) ∧
     length l = length jobs ∧
     ∀ i job, jobs !! i = Some job →
       l !! i =
       Some (job, response_of (on_delete client
                                 (calls w ++ (ApiDelete <$> take i jobs)) job))) ∧
  (∀ w' l, cleanup_tasks client jobs w = (w', Returned l) →
     all_caught (on_delete_tasks client) ApiDeleteTasks (calls w) jobs) ∧
  (∀ w' l, cleanup_jobs client jobs w = (w', Returned l) →
     all_caught (on_delete client) ApiDelete (calls w) jobs).
Proof.
  split_and!.
  - intros Hall. eexists. split; [|split].
    + rewrite cleanup_tasks_pass. by apply pass_Returned.
    + apply responses_length.
    + intros i job Hi. by apply responses_lookup.
  - intros Hall. eexists. split; [|split].
    + rewrite cleanup_jobs_pass. by apply pass_Returned.
    + apply responses_length.
    + intros i job Hi. by apply responses_lookup.
  - intros w' l Hpass. rewrite cleanup_tasks_pass in Hpass.
    by apply pass_Returned_inv in Hpass as (_ & _ & Hall).
  - intros w' l Hpass. rewrite cleanup_jobs_pass in Hpass.
    by apply pass_Returned_inv in Hpass as (_ & _ & Hall).
Qed.

Lemma example_client_raises_only_Exception : raises_only_Exception example_client.
Proof.
  intros h job cls arg [Hr|Hr]; simpl in Hr; [done|].
  case_decide; by simplify_eq.
Qed.

Lemma cleanup_returns_one_pair_per_job_witness :
  all_caught (on_delete_tasks example_client) ApiDeleteTasks
    (calls (World [ApiList] [])) ["svc.jobZ"; "svc.jobY"] ∧
  ∃ l,
    cleanup_tasks example_client ["svc.jobZ"; "svc.jobY"] (World [ApiList] []) =
      (World [ApiList; ApiDeleteTasks "svc.jobZ"; ApiDeleteTasks "svc.jobY"] [],
       Returned l) ∧
    length l = 2%nat ∧
    l !! 0%nat = Some ("svc.jobZ", PyExc Exception (PyStr "boom")) ∧
    l !! 1%nat = Some ("svc.jobY", PyNone).
Proof.
  assert (all_caught (on_delete_tasks example_client) ApiDeleteTasks
            (calls (World [ApiList] [])) ["svc.jobZ"; "svc.jobY"]) as Hall.
  { apply raises_only_Exception_all_caught,
      example_client_raises_only_Exception. }
  split; [exact Hall|].
  destruct (proj1 (cleanup_returns_one_pair_per_job example_client
                     ["svc.jobZ"; "svc.jobY"] (World [ApiList] [])) Hall)
    as (l & Hl & Hlen & Hith).
  exists l. split; [exact Hl|]. split; [exact Hlen|].
  split; [exact (Hith 0%nat "svc.jobZ" eq_refl)|exact (Hith 1%nat "svc.jobY" eq_refl)].
Defined.

(** In a log made of a batch of [delete_tasks] calls followed by a batch of
    [delete] calls, every [delete_tasks] call is before every [delete] call. *)
Lemma batches_ordered (xs ys : list string) (i j : nat) (a b : string) :
  (ApiList :: (ApiDeleteTasks <$> xs) ++ (ApiDelete <$> ys)) !! i
    = Some (ApiDeleteTasks a) →
  (ApiList :: (ApiDeleteTasks <$> xs) ++ (ApiDelete <$> ys)) !! j
    = Some (ApiDelete b) →
  (i < j)%nat.
Proof.
  destruct i as [|i]; [done|]. destruct j as [|j]; [done|]. simpl.
  intros Hi Hj.
  destruct (decide (i < length (ApiDeleteTasks <$> xs))%nat) as [Hlt|Hge].
  - destruct (decide (j < length (ApiDeleteTasks <$> xs))%nat) as [Hlt'|Hge']; [|lia].
    rewrite lookup_app_l, list_lookup_fmap in Hj by done.
    by destruct (xs !! j).
  - rewrite lookup_app_r, list_lookup_fmap in Hi by lia.
    by destruct (ys !! _).
Qed.

(** C10: within a run, every [delete_tasks] call is sent before any
    [delete] call: the log of the run is the [list] call, then
    [delete_tasks] calls for a prefix of the work list, then [delete] calls
    for a prefix of the work list, and a [delete] call is only sent once the
    [delete_tasks] calls for the whole work list have been sent. *)
Theorem delete_tasks_batch_before_delete_batch O client
    (pairs : list (string * string)) w :
  ∃ (to_delete : list string) (n m : nat),
    (∀ w1 running,
       running_job_names client w = (w1, Returned running) →
       to_delete = jobs_to_delete O (expected_job_names pairs) running) ∧
    (m = 0%nat ∨ n = length to_delete) ∧
    drop (length (calls w)) (calls (main O client pairs w).1) =
      ApiList :: (ApiDeleteTasks <$> take n to_delete)
              ++ (ApiDelete <$> take m to_delete) ∧
    ∀ i j a b,
      drop (length (calls w)) (calls (main O client pairs w).1) !! i
        = Some (ApiDeleteTasks a) →
      drop (length (calls w)) (calls (main O client pairs w).1) !! j
        = Some (ApiDelete b) →
      (i < j)%nat.
Proof.
  enough (∃ (to_delete : list string) (n m : nat),
    (∀ w1 running,
       running_job_names client w = (w1, Returned running) →
       to_delete = jobs_to_delete O (expected_job_names pairs) running) ∧
    (m = 0%nat ∨ n = length to_delete) ∧
    drop (length (calls w)) (calls (main O client pairs w).1) =
      ApiList :: (ApiDeleteTasks <$> take n to_delete)
              ++ (ApiDelete <$> take m to_delete))
    as (to_delete & n & m & Hto_delete & Hbatch & Hcalls).
  { exists to_delete, n, m. split_and!; [done..|]. rewrite Hcalls.
    apply batches_ordered. }
  pose proof (running_job_names_world client w) as Hw1.
  destruct (running_job_names client w) as [w1 [running|cls arg]] eqn:Hlist;
    simpl in Hw1; subst w1.
  - set (to_delete := jobs_to_delete O (expected_job_names pairs) running).
    exists to_delete.
    destruct (cleanup_tasks client to_delete
                (World (calls w ++ [ApiList]) (stdout w)))
      as [w2 [tr|cls arg]] eqn:Htasks.
    + pose proof Htasks as Hw2. rewrite cleanup_tasks_pass in Hw2.
      apply pass_Returned_inv in Hw2 as (Hw2 & _ & _). simpl in Hw2.
      destruct (cleanup_jobs client to_delete w2) as [w3 [jr|cls arg]] eqn:Hjobs.
      * exists (length to_delete), (length to_delete).
        split; [by intros ?? [= _ <-]|]. split; [by right|].
        rewrite (main_run O client pairs w _ w2 w3 running tr jr Hlist Htasks Hjobs).
        simpl. by rewrite drop_app_length, !firstn_all.
      * destruct (pass_calls (on_delete client) ApiDelete to_delete w2)
          as (m & _ & Hw3).
        rewrite <-cleanup_jobs_pass, Hjobs in Hw3. simpl in Hw3.
        exists (length to_delete), m.
        split; [by intros ?? [= _ <-]|]. split; [by right|].
        unfold main. cbv zeta.
        rewrite (bind_Returned _ _ _ _ _ Hlist).
        rewrite (bind_Returned _ _ _ _ _ Htasks).
        rewrite (bind_Raised _ _ _ _ _ _ Hjobs).
        simpl. rewrite Hw3, Hw2. simpl.
        by rewrite <-!(assoc_L (++)), drop_app_length, firstn_all.
    + destruct (pass_calls (on_delete_tasks client) ApiDeleteTasks to_delete
                  (World (calls w ++ [ApiList]) (stdout w))) as (n & _ & Hw2).
      rewrite <-cleanup_tasks_pass, Htasks in Hw2. simpl in Hw2.
      exists n, 0%nat.
      split; [by intros ?? [= _ <-]|]. split; [by left|].
      unfold main. cbv zeta.
      rewrite (bind_Returned _ _ _ _ _ Hlist).
      rewrite (bind_Raised _ _ _ _ _ _ Htasks).
      simpl. rewrite Hw2. simpl.
      by rewrite <-!(assoc_L (++)), drop_app_length, app_nil_r.
  - exists [], 0%nat, 0%nat. split; [done|]. split; [by left|].
    unfold main. cbv zeta.
    rewrite (bind_Raised _ _ _ _ _ _ Hlist). simpl.
    by rewrite drop_app_length.
Qed.

(** C2, as the specification states it, fails: not every exception raised
    by a client call is caught by the wrapper.  [except Exception] lets a
    [KeyboardInterrupt] through; it leaves [cleanup_tasks], and the jobs
    after the interrupted one get no call. *)
Lemma keyboard_interrupt_escapes :
  on_delete_tasks interrupted_client [] "a" = Raised KeyboardInterrupt PyNone ∧
  execute_chronos_api_call_for_job (Client.delete_tasks interrupted_client) "a"
    (World [] []) =
    (World [ApiDeleteTasks "a"] [], Raised KeyboardInterrupt PyNone) ∧
  cleanup_tasks interrupted_client ["a"; "b"] (World [] []) =
    (World [ApiDeleteTasks "a"] [], Raised KeyboardInterrupt PyNone) ∧
  ¬ (∀ (api_call : string → M pyval) job w w' cls arg,
       api_call job w = (w', Raised cls arg) →
       execute_chronos_api_call_for_job api_call job w
         = (w', Returned (PyExc cls arg))).
Proof.
  split_and!; [reflexivity..|].
  intros Hcaught.
  by specialize (Hcaught (Client.delete_tasks interrupted_client) "a"
                   (World [] []) _ _ _ eq_refl).
Qed.

(** C2, amended: every exception raised by a client call that is an
    instance of [Exception] is caught at the boundary of that one call and
    recorded as a failed outcome of it; it does not leave the wrapper, and
    the pass goes on with the remaining jobs as if the call had returned.
    So a pass in which every raised exception is an instance of [Exception]
    returns, having sent the call of every job.  An exception that is not
    an instance of [Exception] is not caught: it leaves the wrapper as it
    was raised. *)
Theorem exceptions_caught_per_call :
  (∀ (api_call : string → M pyval) job w w' cls arg,
     api_call job w = (w', Raised cls arg) →
     (issubclass_Exception cls = true →
      execute_chronos_api_call_for_job api_call job w =
        (w', Returned (PyExc cls arg)) ∧
      failed (job, PyExc cls arg)) ∧
     (issubclass_Exception cls = false →
      execute_chronos_api_call_for_job api_call job w = (w', Raised cls arg))) ∧
  (∀ client job (rest : list string) w cls arg,
     issubclass_Exception cls = true →
     (on_delete_tasks client (calls w) job = Raised cls arg →
      cleanup_tasks client (job :: rest) w =
      (l ← cleanup_tasks client rest; mret ((job, PyExc cls arg) :: l))
        (World (calls w ++ [ApiDeleteTasks job]) (stdout w))) ∧
     (on_delete client (calls w) job = Raised cls arg →
      cleanup_jobs client (job :: rest) w =
      (l ← cleanup_jobs client rest; mret ((job, PyExc cls arg) :: l))
        (World (calls w ++ [ApiDelete job]) (stdout w)))) ∧
  (∀ client (jobs : list string) w,
     (all_caught (on_delete_tasks client) ApiDeleteTasks (calls w) jobs →
      ∃ l,
        cleanup_tasks client jobs w =
          (World (calls w ++ (ApiDeleteTasks <$> jobs)) (stdout w), Returned l) ∧
        l.*1 = jobs ∧
        ∀ i job cls arg,
          jobs !! i = Some job →
          on_delete_tasks client (calls w ++ (ApiDeleteTasks <$> take i jobs)) job
            = Raised cls arg →
          l !! i = Some (job, PyExc cls arg) ∧ failed (job, PyExc cls arg)) ∧
     (all_caught (on_delete client) ApiDelete (calls w) jobs →
      ∃ l,
        cleanup_jobs client jobs w =
          (World (calls w ++ (ApiDelete <$> jobs)) (stdout w), Returned l) ∧
        l.*1 = jobs ∧
        ∀ i job cls arg,
          jobs !! i = Some job →
          on_delete client (calls w ++ (ApiDelete <$> take i jobs)) job
            = Raised cls arg →
          l !! i = Some (job, PyExc cls arg) ∧ failed (job, PyExc cls arg))).
Proof.
  split_and!.
  - intros api_call job w w' cls arg Hcall. split; intros Hcls.
    + split; [|done]. by apply execute_chronos_api_call_for_job_caught.
    + by apply execute_chronos_api_call_for_job_escapes.
  - intros client job rest w cls arg Hcls. split; intros Hr.
    + rewrite !cleanup_tasks_pass, pass_step, Hr, Hcls.
      unfold mbind, M_bind, bind, mret, M_ret, ret.
      by destruct (clean_up_pass _ _ rest _) as [w' [l|cls' arg']].
    + rewrite !cleanup_jobs_pass, pass_step, Hr, Hcls.
      unfold mbind, M_bind, bind, mret, M_ret, ret.
      by destruct (clean_up_pass _ _ rest _) as [w' [l|cls' arg']].
  - intros client jobs w. split; intros Hall; eexists; split_and!.
    + rewrite cleanup_tasks_pass. by apply pass_Returned.
    + apply responses_fst.
    + intros i job cls arg Hi Hr.
      rewrite (responses_lookup _ _ _ _ _ _ Hi), Hr. split; [done|].
      by apply (Hall i job cls arg).
    + rewrite cleanup_jobs_pass. by apply pass_Returned.
    + apply responses_fst.
    + intros i job cls arg Hi Hr.
      rewrite (responses_lookup _ _ _ _ _ _ Hi), Hr. split; [done|].
      by apply (Hall i job cls arg).
Qed.

Lemma exceptions_caught_per_call_witness :
  Client.delete_tasks mixed_client "a" (World [ApiList] []) =
    (World [ApiList; ApiDeleteTasks "a"] [], Raised Exception (PyStr "boom")) ∧
  issubclass_Exception Exception = true ∧
  execute_chronos_api_call_for_job (Client.delete_tasks mixed_client) "a"
    (World [ApiList] []) =
    (World [ApiList; ApiDeleteTasks "a"] [],
     Returned (PyExc Exception (PyStr "boom"))) ∧
  Client.delete_tasks mixed_client "b" (World [ApiList] []) =
    (World [ApiList; ApiDeleteTasks "b"] [], Raised KeyboardInterrupt PyNone) ∧
  issubclass_Exception KeyboardInterrupt = false ∧
  execute_chronos_api_call_for_job (Client.delete_tasks mixed_client) "b"
    (World [ApiList] []) =
    (World [ApiList; ApiDeleteTasks "b"] [], Raised KeyboardInterrupt PyNone) ∧
  cleanup_tasks mixed_client ["a"; "c"] (World [ApiList] []) =
    (l ← cleanup_tasks mixed_client ["c"];
     mret (("a", PyExc Exception (PyStr "boom")) :: l))
      (World [ApiList; ApiDeleteTasks "a"] []).
Proof.
  destruct exceptions_caught_per_call as (Hcall & Hnext & _).
  split; [reflexivity|]. split; [reflexivity|].
  split.
  { exact (proj1 (proj1 (Hcall (Client.delete_tasks mixed_client) "a"
                           (World [ApiList] []) _ Exception (PyStr "boom")
                           eq_refl) eq_refl)). }
  split; [reflexivity|]. split; [reflexivity|].
  split.
  { exact (proj2 (Hcall (Client.delete_tasks mixed_client) "b"
                    (World [ApiList] []) _ KeyboardInterrupt PyNone eq_refl)
             eq_refl). }
  exact (proj1 (Hnext mixed_client "a" ["c"] (World [ApiList] [])
                  Exception (PyStr "boom") eq_refl) eq_refl).
Defined.




(** * Further properties of the module *)

(** ** Runs of [main] that do not reach the report *)

Lemma main_discovery_Raised O client (pairs : list (string * string)) w w1 cls arg :
  running_job_names client w = (w1, Raised cls arg) →
  main O client pairs w = (w1, Raised cls arg).
Proof.
  intros Hlist. unfold main. cbv zeta.
  by rewrite (bind_Raised _ _ _ _ _ _ Hlist).
Qed.

Lemma main_tasks_Raised O client (pairs : list (string * string))
    w w1 w2 running cls arg :
  running_job_names client w = (w1, Returned running) →
  cleanup_tasks client (jobs_to_delete O (expected_job_names pairs) running) w1
    = (w2, Raised cls arg) →
  main O client pairs w = (w2, Raised cls arg).
Proof.
  intros Hlist Htasks. unfold main. cbv zeta.
  rewrite (bind_Returned _ _ _ _ _ Hlist).
  by rewrite (bind_Raised _ _ _ _ _ _ Htasks).
Qed.

Lemma main_jobs_Raised O client (pairs : list (string * string))
    w w1 w2 w3 running tr cls arg :
  running_job_names client w = (w1, Returned running) →
  cleanup_tasks client (jobs_to_delete O (expected_job_names pairs) running) w1
    = (w2, Returned tr) →
  cleanup_jobs client (jobs_to_delete O (expected_job_names pairs) running) w2
    = (w3, Raised cls arg) →
  main O client pairs w = (w3, Raised cls arg).
Proof.
  intros Hlist Htasks Hjobs. unfold main. cbv zeta.
  rewrite (bind_Returned _ _ _ _ _ Hlist).
  rewrite (bind_Returned _ _ _ _ _ Htasks).
  by rewrite (bind_Raised _ _ _ _ _ _ Hjobs).
Qed.

(** ** Discovery: [running_job_names] *)

Lemma list_comprehension_dict_getitem_spec
    (jobs : list (gmap string string)) (key : string) w :
  list_comprehension (λ job, dict_getitem job key) jobs w =
  (w, match mapM (λ job : gmap string string, job !! key) jobs with
      | Some names => Returned names
      | None => Raised KeyError (PyStr key)
      end).
Proof.
  induction jobs as [|job jobs IH]; [done|]. simpl.
  unfold mbind at 1, M_bind, bind, dict_getitem at 1.
  destruct (job !! key) as [v|]; simpl; [|done].
  unfold mbind at 1, M_bind, bind. rewrite IH.
  by destruct (mapM _ jobs).
Qed.

Lemma running_job_names_run client w (jobs : list (gmap string string)) :
  on_list client (calls w) = Returned jobs →
  running_job_names client w =
  list_comprehension (λ job, dict_getitem job "name") jobs
    (World (calls w ++ [ApiList]) (stdout w)).
Proof.
  intros Hlist. unfold running_job_names.
  erewrite bind_Returned; [done|]. unfold Client.list. by rewrite Hlist.
Qed.

(** X1: [running_job_names] sends the one call [list] and prints nothing.
    When [list] returns job records it returns their names in the order of
    the records if every record has a name, and raises [KeyError('name')]
    as soon as one has none. *)
Theorem running_job_names_spec client w (jobs : list (gmap string string)) :
  on_list client (calls w) = Returned jobs →
  running_job_names client w =
  (World (calls w ++ [ApiList]) (stdout w),
   match mapM (λ job : gmap string string, job !! "name") jobs with
   | Some names => Returned names
   | None => Raised KeyError (PyStr "name")
   end).
Proof.
  intros Hlist. unfold running_job_names.
  erewrite bind_Returned; [apply list_comprehension_dict_getitem_spec|].
  unfold Client.list. by rewrite Hlist.
Qed.

Lemma running_job_names_spec_witness :
  on_list nameless_client (calls (World [] [])) =
    Returned [ {["name" := "a"]}; {["owner" := "b"]} ] ∧
  running_job_names nameless_client (World [] []) =
    (World [ApiList] [], Raised KeyError (PyStr "name")).
Proof.
  split; [reflexivity|].
  exact (running_job_names_spec nameless_client (World [] []) _ eq_refl).
Defined.

(** X2: a failure of [client.list()] is fatal.  Whatever [list] raises,
    also an instance of [Exception], leaves [main] unchanged: the run ends
    after that one call, no deletion is sent and nothing is printed. *)
Theorem list_failure_is_fatal O client (pairs : list (string * string))
    w cls arg :
  on_list client (calls w) = Raised cls arg →
  main O client pairs w =
  (World (calls w ++ [ApiList]) (stdout w), Raised cls arg).
Proof.
  intros Hlist. apply main_discovery_Raised.
  unfold running_job_names.
  erewrite bind_Raised; [done|]. unfold Client.list. by rewrite Hlist.
Qed.

Lemma list_failure_is_fatal_witness :
  on_list unreachable_client (calls (World [] [])) =
    Raised Exception (PyStr "connection refused") ∧
  main gset_ops unreachable_client [("svc", "svc.jobX")] (World [] []) =
    (World [ApiList] [], Raised Exception (PyStr "connection refused")).
Proof.
  split; [reflexivity|].
  exact (list_failure_is_fatal gset_ops unreachable_client
           [("svc", "svc.jobX")] (World [] []) _ _ eq_refl).
Defined.

(** X3: one running job record without a name stops the whole run.
    [main] ends with [KeyError('name')] after the [list] call; no job is
    cleaned up, not even the orphans whose records are complete, and nothing
    is printed. *)
Theorem missing_name_is_fatal O client (pairs : list (string * string))
    w (jobs : list (gmap string string)) (job : gmap string string) :
  on_list client (calls w) = Returned jobs →
  job ∈ jobs →
  job !! "name" = None →
  main O client pairs w =
  (World (calls w ++ [ApiList]) (stdout w), Raised KeyError (PyStr "name")).
Proof.
  intros Hlist Hjob Hname. apply main_discovery_Raised.
  rewrite (running_job_names_run client w jobs Hlist).
  rewrite list_comprehension_dict_getitem_spec.
  destruct (mapM _ jobs) as [names|] eqn:Hnames; [|done].
  apply mapM_Some_1 in Hnames.
  apply list_elem_of_lookup in Hjob as [i Hi].
  destruct (Forall2_lookup_l _ _ _ _ _ Hnames Hi) as (name & _ & Hsome).
  congruence.
Qed.

Lemma missing_name_is_fatal_witness :
  on_list nameless_client (calls (World [] [])) =
    Returned [ {["name" := "a"]}; {["owner" := "b"]} ] ∧
  ({["owner" := "b"]} : gmap string string)
    ∈ [ ({["name" := "a"]} : gmap string string); {["owner" := "b"]} ] ∧
  ({["owner" := "b"]} : gmap string string) !! "name" = None ∧
  main gset_ops nameless_client [] (World [] []) =
    (World [ApiList] [], Raised KeyError (PyStr "name")).
Proof.
  assert (({["owner" := "b"]} : gmap string string)
    ∈ [ ({["name" := "a"]} : gmap string string); {["owner" := "b"]} ])
    as Hin by (right; left).
  assert (({["owner" := "b"]} : gmap string string) !! "name" = None)
    as Hname by (vm_compute; reflexivity).
  split; [reflexivity|]. split; [exact Hin|]. split; [exact Hname|].
  exact (missing_name_is_fatal gset_ops nameless_client [] (World [] [])
           _ _ eq_refl Hin Hname).
Defined.

(** ** A pass that is cut short *)

Lemma pass_escapes respond mk (jobs : list string) w i job cls arg :
  jobs !! i = Some job →
  all_caught respond mk (calls w) (take i jobs) →
  respond (calls w ++ (mk <$> take i jobs)) job = Raised cls arg →
  issubclass_Exception cls = false →
  clean_up_pass respond mk jobs w =
  (World (calls w ++ (mk <$> take (S i) jobs)) (stdout w), Raised cls arg).
Proof.
  revert w i. induction jobs as [|job' jobs IH]; intros w [|i] Hi Hall Hr Hcls;
    simplify_eq/=; rewrite pass_step.
  - rewrite app_nil_r in Hr. by rewrite Hr, Hcls.
  - pose proof (all_caught_cons _ _ _ _ _ Hall) as Hall'.
    rewrite cons_middle, (assoc_L (++)) in Hr.
    rewrite (IH (World (calls w ++ [mk job']) (stdout w)) i Hi Hall' Hr Hcls).
    simpl. rewrite <-(assoc_L (++)). simpl.
    destruct (respond (calls w) job') as [v|cls' arg'] eqn:Hr'; [done|].
    rewrite (Hall 0%nat job' cls' arg'); [done|done|].
    by simpl; rewrite app_nil_r.
Qed.

(** X4: a clean-up pass stops at the first call whose exception is not an
    instance of [Exception].  When the calls for the first [i] jobs raise
    nothing but instances of [Exception] and the call for [jobs[i]] raises
    something else, the pass raises that exception; it has sent the calls
    for [jobs[0..i]] and sends none for the jobs after. *)
Theorem cleanup_stops_at_first_escaping_exception client
    (jobs : list string) w i job cls arg :
  jobs !! i = Some job →
  issubclass_Exception cls = false →
  (all_caught (on_delete_tasks client) ApiDeleteTasks (calls w) (take i jobs) →
   on_delete_tasks client (calls w ++ (ApiDeleteTasks <$> take i jobs)) job
     = Raised cls arg →
   cleanup_tasks client jobs w =
   (World (calls w ++ (ApiDeleteTasks <$> take (S i) jobs)) (stdout w),
    Raised cls arg)) ∧
  (all_caught (on_delete client) ApiDelete (calls w) (take i jobs) →
   on_delete client (calls w ++ (ApiDelete <$> take i jobs)) job
     = Raised cls arg →
   cleanup_jobs client jobs w =
   (World (calls w ++ (ApiDelete <$> take (S i) jobs)) (stdout w),
    Raised cls arg)).
Proof.
  intros Hi Hcls. split; intros Hall Hr.
  - rewrite cleanup_tasks_pass. by eapply pass_escapes.
  - rewrite cleanup_jobs_pass. by eapply pass_escapes.
Qed.

Lemma cleanup_stops_at_first_escaping_exception_witness :
  ["a"; "b"; "c"] !! 1%nat = Some "b" ∧
  issubclass_Exception KeyboardInterrupt = false ∧
  cleanup_jobs interrupted_delete_client ["a"; "b"; "c"] (World [] []) =
    (World [ApiDelete "a"; ApiDelete "b"] [], Raised KeyboardInterrupt PyNone).
Proof.
  split; [reflexivity|]. split; [reflexivity|].
  apply (cleanup_stops_at_first_escaping_exception interrupted_delete_client
           ["a"; "b"; "c"] (World [] []) 1 "b" KeyboardInterrupt PyNone
           eq_refl eq_refl).
  - intros [|i] job cls arg Hi Hr; simpl in Hi; [|by destruct i].
    injection Hi as <-. vm_compute in Hr. discriminate Hr.
  - reflexivity.
Defined.

(** ** The log of any run *)

(** The calls of a run, also of one cut short: [list], then [delete_tasks]
    for a prefix of the work list, then [delete] for a prefix of it. *)
Lemma main_log O client (pairs : list (string * string)) w :
  ∃ (to_delete : list string) (n m : nat),
    (to_delete = [] ∨
     ∃ w1 running,
       running_job_names client w = (w1, Returned running) ∧
       to_delete = jobs_to_delete O (expected_job_names pairs) running) ∧
    drop (length (calls w)) (calls (main O client pairs w).1) =
      ApiList :: (ApiDeleteTasks <$> take n to_delete)
              ++ (ApiDelete <$> take m to_delete).
Proof.
  pose proof (running_job_names_world client w) as Hw1.
  destruct (running_job_names client w) as [w1 [running|cls arg]] eqn:Hlist;
    simpl in Hw1; subst w1.
  - exists (jobs_to_delete O (expected_job_names pairs) running).
    destruct (cleanup_tasks client
                (jobs_to_delete O (expected_job_names pairs) running)
                (World (calls w ++ [ApiList]) (stdout w)))
      as [w2 [tr|cls arg]] eqn:Htasks.
    + pose proof Htasks as Hw2. rewrite cleanup_tasks_pass in Hw2.
      apply pass_Returned_inv in Hw2 as (Hw2 & _ & _). simpl in Hw2.
      destruct (pass_calls (on_delete client) ApiDelete
                  (jobs_to_delete O (expected_job_names pairs) running) w2)
        as (m & _ & Hw3).
      rewrite <-cleanup_jobs_pass in Hw3.
      exists (length (jobs_to_delete O (expected_job_names pairs) running)), m.
      split; [right; by eexists _, _|].
      destruct (cleanup_jobs client _ w2) as [w3 [jr|cls arg]] eqn:Hjobs;
        simpl in Hw3.
      * rewrite (main_run O client pairs w _ w2 w3 running tr jr Hlist Htasks Hjobs).
        simpl. apply (f_equal calls) in Hw3. rewrite Hw2 in Hw3. simpl in Hw3.
        pose proof Hjobs as Hw3'. rewrite cleanup_jobs_pass in Hw3'.
        apply pass_Returned_inv in Hw3' as (Hw3' & _ & _).
        rewrite Hw3', Hw2 in Hw3. simpl in Hw3.
        rewrite <-!(assoc_L (++)) in Hw3. apply (inj (app _)) in Hw3.
        simpl in Hw3. injection Hw3 as Hw3. apply (inj (app _)) in Hw3.
        by rewrite drop_app_length, firstn_all, Hw3.
      * rewrite (main_jobs_Raised O client pairs w _ w2 w3 running tr cls arg
                   Hlist Htasks Hjobs).
        simpl. rewrite Hw3, Hw2. simpl.
        by rewrite <-!(assoc_L (++)), drop_app_length, firstn_all.
    + destruct (pass_calls (on_delete_tasks client) ApiDeleteTasks
                  (jobs_to_delete O (expected_job_names pairs) running)
                  (World (calls w ++ [ApiList]) (stdout w))) as (n & _ & Hw2).
      rewrite <-cleanup_tasks_pass, Htasks in Hw2. simpl in Hw2.
      exists n, 0%nat. split; [right; by eexists _, _|].
      rewrite (main_tasks_Raised O client pairs w _ w2 running cls arg
                 Hlist Htasks).
      simpl. rewrite Hw2. simpl.
      by rewrite <-!(assoc_L (++)), drop_app_length, app_nil_r.
  - exists [], 0%nat, 0%nat. split; [by left|].
    rewrite (main_discovery_Raised O client pairs w _ cls arg Hlist). simpl.
    by rewrite drop_app_length.
Qed.

(** X5: [main] never touches a job that is expected or that is not
    running.  In every run, also one cut short by an exception, each
    [delete_tasks] and each [delete] call is for a job that [list] reported
    and that is the job name of no pair of the configuration. *)
Theorem only_unexpected_running_jobs_are_deleted O (laws : PySetLaws O) client
    (pairs : list (string * string)) w (job : string) :
  ApiDeleteTasks job ∈ drop (length (calls w)) (calls (main O client pairs w).1) ∨
  ApiDelete job ∈ drop (length (calls w)) (calls (main O client pairs w).1) →
  ∃ w1 running,
    running_job_names client w = (w1, Returned running) ∧
    job ∈ running ∧
    ∀ service, (service, job) ∉ pairs.
Proof.
  destruct (main_log O client pairs w) as (to_delete & n & m & Hto_delete & ->).
  intros Hcall.
  assert (job ∈ to_delete) as Hjob.
  { destruct Hcall as [Hcall|Hcall];
      apply elem_of_cons in Hcall as [?|Hcall]; try done;
      apply elem_of_app in Hcall as [Hcall|Hcall];
      apply list_elem_of_fmap in Hcall as (job' & Heq & Hjob');
      simplify_eq; apply elem_of_take in Hjob' as (i & Hi & _);
      by eapply list_elem_of_lookup_2. }
  destruct Hto_delete as [->|(w1 & running & Hlist & ->)];
    [by apply elem_of_nil in Hjob|].
  apply (elem_of_jobs_to_delete O) in Hjob as [Hrunning Hexpected].
  exists w1, running. split_and!; [done..|].
  intros service Hpair. apply Hexpected.
  apply (list_elem_of_fmap_2 snd) in Hpair. done.
Qed.

Lemma only_unexpected_running_jobs_are_deleted_witness :
  PySetLaws gset_ops ∧
  (ApiDeleteTasks "svc.jobZ" ∈ drop (length (calls (World [] [])))
     (calls (main gset_ops example_client [("svc", "svc.jobX")] (World [] [])).1) ∨
   ApiDelete "svc.jobZ" ∈ drop (length (calls (World [] [])))
     (calls (main gset_ops example_client [("svc", "svc.jobX")] (World [] [])).1)) ∧
  ∃ w1 running,
    running_job_names example_client (World [] []) = (w1, Returned running) ∧
    "svc.jobZ" ∈ running ∧
    ∀ service, (service, "svc.jobZ") ∉ [("svc", "svc.jobX")].
Proof.
  assert (ApiDeleteTasks "svc.jobZ" ∈ drop (length (calls (World [] [])))
     (calls (main gset_ops example_client [("svc", "svc.jobX")] (World [] [])).1) ∨
   ApiDelete "svc.jobZ" ∈ drop (length (calls (World [] [])))
     (calls (main gset_ops example_client [("svc", "svc.jobX")] (World [] [])).1))
    as Hcall.
  { left.
    assert (calls (main gset_ops example_client [("svc", "svc.jobX")]
                     (World [] [])).1 =
            [ApiList; ApiDeleteTasks "svc.jobY"; ApiDeleteTasks "svc.jobZ";
             ApiDelete "svc.jobY"; ApiDelete "svc.jobZ"]) as ->
      by (vm_compute; reflexivity).
    simpl. right. right. left. }
  split; [exact gset_laws|]. split; [exact Hcall|].
  exact (only_unexpected_running_jobs_are_deleted gset_ops gset_laws
           example_client [("svc", "svc.jobX")] (World [] []) "svc.jobZ" Hcall).
Defined.

(** X6: [main] never repeats a call.  In every run, also one cut short, the
    log holds [list] once, and for each job at most one [delete_tasks] and
    at most one [delete] call: nothing is retried, and running jobs that
    [list] reports more than once are handled once. *)
Theorem no_call_is_sent_twice O (laws : PySetLaws O) client
    (pairs : list (string * string)) w :
  NoDup (drop (length (calls w)) (calls (main O client pairs w).1)).
Proof.
  destruct (main_log O client pairs w) as (to_delete & n & m & Hto_delete & ->).
  assert (NoDup to_delete) as Hnodup.
  { destruct Hto_delete as [->|(w1 & running & _ & ->)];
      [apply NoDup_nil_2|by apply NoDup_jobs_to_delete]. }
  apply NoDup_cons. split.
  - intros [Hin|Hin]%elem_of_app;
      by apply list_elem_of_fmap in Hin as (job & ? & _).
  - apply NoDup_app. split_and!.
    + apply (NoDup_fmap_2 _). eapply sublist_NoDup; [done|apply sublist_take].
    + intros call (job & -> & _)%list_elem_of_fmap Hin.
      by apply list_elem_of_fmap in Hin as (job' & ? & _).
    + apply (NoDup_fmap_2 _). eapply sublist_NoDup; [done|apply sublist_take].
Qed.

Lemma no_call_is_sent_twice_witness :
  PySetLaws gset_ops ∧
  NoDup (drop (length (calls (World [ApiList] [])))
           (calls (main gset_ops example_client [("svc", "svc.jobX")]
                     (World [ApiList] [])).1)).
Proof.
  split; [exact gset_laws|].
  exact (no_call_is_sent_twice gset_ops gset_laws example_client
           [("svc", "svc.jobX")] (World [ApiList] [])).
Defined.

(** X7: the report is printed only at the end.  When an exception leaves
    the task pass, [main] ends with it, has printed nothing and has sent no
    [delete] call; when one leaves the job pass, [main] ends with it and has
    printed nothing either, although every [delete_tasks] call and part of
    the [delete] calls were sent. *)
Theorem cut_short_run_prints_nothing O client (pairs : list (string * string))
    w w1 running :
  running_job_names client w = (w1, Returned running) →
  (∀ w2 cls arg,
     cleanup_tasks client (jobs_to_delete O (expected_job_names pairs) running) w1
       = (w2, Raised cls arg) →
     main O client pairs w = (w2, Raised cls arg) ∧
     stdout w2 = stdout w ∧
     ∀ job, ApiDelete job ∉ drop (length (calls w)) (calls w2)) ∧
  (∀ w2 tr w3 cls arg,
     cleanup_tasks client (jobs_to_delete O (expected_job_names pairs) running) w1
       = (w2, Returned tr) →
     cleanup_jobs client (jobs_to_delete O (expected_job_names pairs) running) w2
       = (w3, Raised cls arg) →
     main O client pairs w = (w3, Raised cls arg) ∧
     stdout w3 = stdout w ∧
     ∀ job, job ∈ jobs_to_delete O (expected_job_names pairs) running →
       ApiDeleteTasks job ∈ drop (length (calls w)) (calls w3)).
Proof.
  intros Hlist.
  pose proof (running_job_names_world client w) as Hw1.
  rewrite Hlist in Hw1. simpl in Hw1.
  split.
  - intros w2 cls arg Htasks.
    split; [by eapply main_tasks_Raised|].
    destruct (pass_calls (on_delete_tasks client) ApiDeleteTasks
                (jobs_to_delete O (expected_job_names pairs) running) w1)
      as (n & _ & Hw2).
    rewrite <-cleanup_tasks_pass, Htasks, Hw1 in Hw2. simpl in Hw2.
    rewrite Hw2. simpl. split; [done|].
    intros job. rewrite <-(assoc_L (++)), drop_app_length.
    intros [?|Hin]%elem_of_cons; [done|].
    by apply list_elem_of_fmap in Hin as (job' & ? & _).
  - intros w2 tr w3 cls arg Htasks Hjobs.
    split; [by eapply main_jobs_Raised|].
    pose proof Htasks as Hw2. rewrite cleanup_tasks_pass in Hw2.
    apply pass_Returned_inv in Hw2 as (Hw2 & _ & _).
    destruct (pass_calls (on_delete client) ApiDelete
                (jobs_to_delete O (expected_job_names pairs) running) w2)
      as (m & _ & Hw3).
    rewrite <-cleanup_jobs_pass, Hjobs, Hw2, Hw1 in Hw3. simpl in Hw3.
    rewrite Hw3. simpl. split; [done|].
    intros job Hjob. rewrite <-!(assoc_L (++)), drop_app_length.
    right. apply elem_of_app. left. by apply list_elem_of_fmap_2.
Qed.

Lemma cut_short_run_prints_nothing_witness :
  running_job_names interrupted_delete_client (World [] ["earlier output"]) =
    (World [ApiList] ["earlier output"], Returned ["a"; "b"]) ∧
  main gset_ops interrupted_delete_client [] (World [] ["earlier output"]) =
    (World [ApiList; ApiDeleteTasks "a"; ApiDeleteTasks "b";
            ApiDelete "a"; ApiDelete "b"] ["earlier output"],
     Raised KeyboardInterrupt PyNone).
Proof.
  assert (running_job_names interrupted_delete_client
            (World [] ["earlier output"]) =
    (World [ApiList] ["earlier output"], Returned ["a"; "b"]))
    as Hlist by (vm_compute; reflexivity).
  assert (cleanup_tasks interrupted_delete_client
            (jobs_to_delete gset_ops (expected_job_names []) ["a"; "b"])
            (World [ApiList] ["earlier output"]) =
          (World [ApiList; ApiDeleteTasks "a"; ApiDeleteTasks "b"]
             ["earlier output"],
           Returned [("a", PyNone); ("b", PyNone)]))
    as Htasks by (vm_compute; reflexivity).
  assert (cleanup_jobs interrupted_delete_client
            (jobs_to_delete gset_ops (expected_job_names []) ["a"; "b"])
            (World [ApiList; ApiDeleteTasks "a"; ApiDeleteTasks "b"]
               ["earlier output"]) =
          (World [ApiList; ApiDeleteTasks "a"; ApiDeleteTasks "b";
                  ApiDelete "a"; ApiDelete "b"] ["earlier output"],
           Raised KeyboardInterrupt PyNone))
    as Hjobs by (vm_compute; reflexivity).
  split; [exact Hlist|].
  exact (proj1 (proj2 (cut_short_run_prints_nothing gset_ops
                         interrupted_delete_client [] _ _ _ Hlist)
                  _ _ _ _ _ Htasks Hjobs)).
Defined.

(** ** Runs with a client that raises only instances of [Exception] *)

(** X8: failures of single deletions never stop the run.  With a client
    whose [delete] and [delete_tasks] raise nothing but instances of
    [Exception], and whose [list] returns records that all have a name,
    [main] always reaches its report: it sends [list], then [delete_tasks]
    and then [delete] for every orphan, records for each orphan what the
    client answered to each of its two calls, prints the report of exactly
    these responses, and ends by returning or by [sys.exit(1)]. *)
Theorem per_item_errors_never_abort O client (pairs : list (string * string))
    w (jobs : list (gmap string string)) (names : list string) :
  raises_only_Exception client →
  on_list client (calls w) = Returned jobs →
  mapM (λ job : gmap string string, job !! "name") jobs = Some names →
  ∃ tr jr : list (string * pyval),
    length tr = length (jobs_to_delete O (expected_job_names pairs) names) ∧
    length jr = length (jobs_to_delete O (expected_job_names pairs) names) ∧
    (∀ i job,
       jobs_to_delete O (expected_job_names pairs) names !! i = Some job →
       tr !! i =
         Some (job, response_of
                 (on_delete_tasks client
                    (calls w ++ ApiList
                       :: (ApiDeleteTasks <$>
                             take i (jobs_to_delete O (expected_job_names pairs) names)))
                    job)) ∧
       jr !! i =
         Some (job, response_of
                 (on_delete client
                    (calls w ++ ApiList
                       :: (ApiDeleteTasks <$>
                             jobs_to_delete O (expected_job_names pairs) names)
                       ++ (ApiDelete <$>
                             take i (jobs_to_delete O (expected_job_names pairs) names)))
                    job))) ∧
    tr.*1 = jobs_to_delete O (expected_job_names pairs) names ∧
    jr.*1 = jobs_to_delete O (expected_job_names pairs) names ∧
    main O client pairs w =
    (World (calls w ++ ApiList
              :: (ApiDeleteTasks <$> jobs_to_delete O (expected_job_names pairs) names)
              ++ (ApiDelete <$> jobs_to_delete O (expected_job_names pairs) names))
           (stdout w ++
            report_stdout (jobs_to_delete O (expected_job_names pairs) names) tr jr),
     if decide (jobs_to_delete O (expected_job_names pairs) names ≠ [] ∧
                Exists failed (tr ++ jr))
     then Raised SystemExit (PyInt 1)
     else Returned ()).
Proof.
  intros Hclient Hlist Hnames.
  assert (running_job_names client w =
          (World (calls w ++ [ApiList]) (stdout w), Returned names)) as Hrun.
  { rewrite (running_job_names_run client w jobs Hlist).
    by rewrite list_comprehension_dict_getitem_spec, Hnames. }
  destruct (main_reaches_report O client pairs w _ names Hclient Hrun)
    as (w2 & w3 & tr & jr & Htasks & Hjobs).
  exists tr, jr.
  destruct (run_fst_responses O client pairs w _ w2 w3 names tr jr
              Hrun Htasks Hjobs) as [Htr Hjr].
  pose proof (main_run O client pairs w _ w2 w3 names tr jr Hrun Htasks Hjobs)
    as Hmain.
  split_and!; [| | |done..].
  - by rewrite <-Htr, length_fmap.
  - by rewrite <-Hjr, length_fmap.
  - intros i job Hi.
    rewrite cleanup_tasks_pass in Htasks.
    apply pass_Returned_inv in Htasks as (Hw2 & Htr' & _).
    rewrite cleanup_jobs_pass, Hw2 in Hjobs.
    apply pass_Returned_inv in Hjobs as (_ & Hjr' & _).
    simpl in Htr', Hjr'. rewrite Htr', Hjr'.
    rewrite !(responses_lookup _ _ _ _ _ _ Hi).
    by rewrite <-!(assoc_L (++)).
Qed.

Lemma per_item_errors_never_abort_witness :
  raises_only_Exception example_client ∧
  on_list example_client (calls (World [] [])) =
    Returned [ {["name" := "svc.jobX"]};
               {["name" := "svc.jobY"]};
               {["name" := "svc.jobZ"]} ] ∧
  mapM (λ job : gmap string string, job !! "name")
    [ ({["name" := "svc.jobX"]} : gmap string string);
      {["name" := "svc.jobY"]}; {["name" := "svc.jobZ"]} ] =
    Some ["svc.jobX"; "svc.jobY"; "svc.jobZ"] ∧
  ∃ tr jr : list (string * pyval),
    tr.*1 = jobs_to_delete gset_ops (expected_job_names [("svc", "svc.jobX")])
              ["svc.jobX"; "svc.jobY"; "svc.jobZ"] ∧
    jr.*1 = jobs_to_delete gset_ops (expected_job_names [("svc", "svc.jobX")])
              ["svc.jobX"; "svc.jobY"; "svc.jobZ"] ∧
    calls (main gset_ops example_client [("svc", "svc.jobX")] (World [] [])).1 =
      calls (World [] []) ++ ApiList
        :: (ApiDeleteTasks <$> jobs_to_delete gset_ops
              (expected_job_names [("svc", "svc.jobX")])
              ["svc.jobX"; "svc.jobY"; "svc.jobZ"])
        ++ (ApiDelete <$> jobs_to_delete gset_ops
              (expected_job_names [("svc", "svc.jobX")])
              ["svc.jobX"; "svc.jobY"; "svc.jobZ"]).
Proof.
  assert (mapM (λ job : gmap string string, job !! "name")
    [ ({["name" := "svc.jobX"]} : gmap string string);
      {["name" := "svc.jobY"]}; {["name" := "svc.jobZ"]} ] =
    Some ["svc.jobX"; "svc.jobY"; "svc.jobZ"]) as Hnames
    by (vm_compute; reflexivity).
  split; [exact example_client_raises_only_Exception|].
  split; [reflexivity|]. split; [exact Hnames|].
  destruct (per_item_errors_never_abort gset_ops example_client
              [("svc", "svc.jobX")] (World [] []) _ _
              example_client_raises_only_Exception eq_refl Hnames)
    as (tr & jr & _ & _ & _ & Htr & Hjr & Hmain).
  exists tr, jr. split; [exact Htr|]. split; [exact Hjr|].
  exact (f_equal (λ r, calls r.1) Hmain).
Defined.

(** X9: when every deletion succeeds, the report has exactly two sections,
    the removed tasks and then the removed jobs, each listing every orphan
    in the order of the work list, and [main] returns. *)
Theorem all_deletions_succeed_report O client (pairs : list (string * string))
    w w1 w2 w3 running tr jr :
  running_job_names client w = (w1, Returned running) →
  cleanup_tasks client (jobs_to_delete O (expected_job_names pairs) running) w1
    = (w2, Returned tr) →
  cleanup_jobs client (jobs_to_delete O (expected_job_names pairs) running) w2
    = (w3, Returned jr) →
  jobs_to_delete O (expected_job_names pairs) running ≠ [] →
  Forall succeeded (tr ++ jr) →
  main O client pairs w =
  (World (calls w ++ ApiList
            :: (ApiDeleteTasks <$> jobs_to_delete O (expected_job_names pairs) running)
            ++ (ApiDelete <$> jobs_to_delete O (expected_job_names pairs) running))
         (stdout w ++
          [format_list_output
             "Successfully Removed Tasks (if any were running) for:"
             (jobs_to_delete O (expected_job_names pairs) running);
           format_list_output "Successfully Removed Jobs:"
             (jobs_to_delete O (expected_job_names pairs) running)]),
   Returned ()).
Proof.
  intros Hlist Htasks Hjobs Hne Hall.
  rewrite (main_run O client pairs w w1 w2 w3 running tr jr Hlist Htasks Hjobs).
  destruct (run_fst_responses O client pairs w w1 w2 w3 running tr jr
              Hlist Htasks Hjobs) as [Htr Hjr].
  apply Forall_app in Hall as [Htrs Hjrs].
  assert (∀ l : list (string * pyval),
            Forall succeeded l → filter succeeded l = l) as Hkeep.
  { intros l Hl. induction Hl as [|r l Hr Hl IH]; [done|].
    by rewrite filter_cons, decide_True, IH by done. }
  rewrite decide_False.
  2:{ intros [_ Hex]. apply Exists_app in Hex.
      rewrite <-!filter_failed_Exists in Hex.
      rewrite !(proj2 (filter_failed_nil _)) in Hex by done. simpl in Hex. lia. }
  f_equal. f_equal. unfold report_stdout.
  rewrite !(proj2 (filter_failed_nil _)), !Hkeep by done.
  destruct (jobs_to_delete O _ running) as [|job jobs]; [done|].
  destruct tr as [|r tr]; [done|]. destruct jr as [|r' jr]; [done|].
  simpl.
  change (r.1 :: map fst tr) with ((r :: tr).*1).
  change (r'.1 :: map fst jr) with ((r' :: jr).*1).
  by rewrite Htr, Hjr.
Qed.

Lemma all_deletions_succeed_report_witness :
  running_job_names healthy_client (World [] []) =
    (World [ApiList] [], Returned ["a"; "b"]) ∧
  jobs_to_delete gset_ops (expected_job_names [("svc", "x")]) ["a"; "b"] ≠ [] ∧
  Forall succeeded ([("a", PyNone); ("b", PyNone)] ++ [("a", PyNone); ("b", PyNone)]) ∧
  stdout (main gset_ops healthy_client [("svc", "x")] (World [] [])).1 =
    stdout (World [] []) ++
    [format_list_output "Successfully Removed Tasks (if any were running) for:"
       (jobs_to_delete gset_ops (expected_job_names [("svc", "x")]) ["a"; "b"]);
     format_list_output "Successfully Removed Jobs:"
       (jobs_to_delete gset_ops (expected_job_names [("svc", "x")]) ["a"; "b"])].
Proof.
  assert (Forall succeeded
            ([("a", PyNone); ("b", PyNone)] ++ [("a", PyNone); ("b", PyNone)]))
    as Hall by (repeat (apply Forall_cons; split; [reflexivity|]);
                apply Forall_nil_2).
  assert (jobs_to_delete gset_ops (expected_job_names [("svc", "x")]) ["a"; "b"]
          ≠ []) as Hne by (vm_compute; discriminate).
  assert (running_job_names healthy_client (World [] []) =
    (World [ApiList] [], Returned ["a"; "b"]))
    as Hlist by (vm_compute; reflexivity).
  assert (cleanup_tasks healthy_client
            (jobs_to_delete gset_ops (expected_job_names [("svc", "x")]) ["a"; "b"])
            (World [ApiList] []) =
          (World [ApiList; ApiDeleteTasks "a"; ApiDeleteTasks "b"] [],
           Returned [("a", PyNone); ("b", PyNone)]))
    as Htasks by (vm_compute; reflexivity).
  assert (cleanup_jobs healthy_client
            (jobs_to_delete gset_ops (expected_job_names [("svc", "x")]) ["a"; "b"])
            (World [ApiList; ApiDeleteTasks "a"; ApiDeleteTasks "b"] []) =
          (World [ApiList; ApiDeleteTasks "a"; ApiDeleteTasks "b";
                  ApiDelete "a"; ApiDelete "b"] [],
           Returned [("a", PyNone); ("b", PyNone)]))
    as Hjobs by (vm_compute; reflexivity).
  split; [exact Hlist|]. split; [exact Hne|]. split; [exact Hall|].
  exact (f_equal (λ r, stdout r.1)
           (all_deletions_succeed_report gset_ops healthy_client [("svc", "x")]
              _ _ _ _ _ _ _ Hlist Htasks Hjobs Hne Hall)).
Defined.

(** ** The classification loop of [main] *)

(** X10: the loop that sorts the responses loses and invents nothing.
    The successes and the failures are both sub-sequences of the responses,
    in their order; no success is an instance of [Exception] and every
    failure is one; together they are the responses, each exactly once. *)
Theorem partition_responses_is_a_partition (responses : list (string * pyval)) :
  (partition_responses responses).1 `sublist_of` responses ∧
  (partition_responses responses).2 `sublist_of` responses ∧
  Forall succeeded (partition_responses responses).1 ∧
  Forall failed (partition_responses responses).2 ∧
  (partition_responses responses).1 ++ (partition_responses responses).2
    ≡ₚ responses.
Proof.
  rewrite partition_responses_filter. simpl. split_and!.
  - apply sublist_filter.
  - apply sublist_filter.
  - apply Forall_forall. by intros r [Hr _]%list_elem_of_filter.
  - apply Forall_forall. by intros r [Hr _]%list_elem_of_filter.
  - induction responses as [|r responses IH]; [done|].
    rewrite !filter_cons.
    destruct (decide (succeeded r)) as [Hs|Hs].
    + rewrite decide_False by (by apply succeeded_not_failed).
      simpl. by rewrite IH.
    + rewrite decide_True.
      * by rewrite <-Permutation_middle, IH.
      * unfold succeeded, failed in *.
        by destruct (isinstance_Exception r.2).
Qed.

(** ** The report sections: [format_list_output] *)

Lemma string_app_assoc (s t u : string) : (s +:+ t) +:+ u = s +:+ t +:+ u.
Proof.
  induction s as [|c s IH]; [reflexivity|].
  change (String c ((s +:+ t) +:+ u) = String c (s +:+ t +:+ u)).
  by rewrite IH.
Qed.

Lemma concat_indented (name : string) (names : list string) :
  newline +:+ "  " +:+ String.concat (newline +:+ "  ") (name :: names) =
  String.concat "" (map (λ n, newline +:+ "  " +:+ n) (name :: names)).
Proof.
  revert name. induction names as [|name' names IH]; intros name; [done|].
  change (String.concat (newline +:+ "  ") (name :: name' :: names))
    with (name +:+ (newline +:+ "  ")
               +:+ String.concat (newline +:+ "  ") (name' :: names)).
  change (String.concat "" (map (λ n, newline +:+ "  " +:+ n)
                              (name :: name' :: names)))
    with ((newline +:+ "  " +:+ name) +:+ "" +:+
          String.concat "" (map (λ n, newline +:+ "  " +:+ n) (name' :: names))).
  rewrite <-IH, !string_app_assoc. reflexivity.
Qed.

(** X11: a section is its title followed by one line per job name, in
    order, each indented by two spaces.  For an empty list of names the
    title is still followed by a line break and the two spaces. *)
Theorem format_list_output_lines (title : string) (job_names : list string) :
  format_list_output title job_names =
  title +:+
  match job_names with
  | [] => newline +:+ "  "
  | _ :: _ => String.concat "" (map (λ name, newline +:+ "  " +:+ name) job_names)
  end.
Proof.
  unfold format_list_output. destruct job_names as [|name names]; [done|].
  f_equal. rewrite <-concat_indented. done.
Qed.

(** ** More on the diff *)

(** X12: when no running job is expected, in particular when the
    configuration yields no job at all, every running job is an orphan:
    the work list is the list of running jobs without its repetitions, up
    to order. *)
Theorem nothing_expected_deletes_everything O (laws : PySetLaws O)
    (E A : list string) :
  (∀ job, job ∈ A → job ∉ E) →
  jobs_to_delete O E A ≡ₚ remove_dups A.
Proof.
  intros Hdisjoint. apply NoDup_Permutation.
  - by apply NoDup_jobs_to_delete.
  - apply NoDup_remove_dups.
  - intros job. rewrite (elem_of_jobs_to_delete O), elem_of_remove_dups.
    split; [tauto|]. intros Hjob. split; [done|by apply Hdisjoint].
Qed.

Lemma nothing_expected_deletes_everything_witness :
  PySetLaws gset_ops ∧
  (∀ job : string, job ∈ ["b"; "a"; "b"] → job ∉ ([] : list string)) ∧
  jobs_to_delete gset_ops [] ["b"; "a"; "b"] ≡ₚ remove_dups ["b"; "a"; "b"].
Proof.
  assert (∀ job : string, job ∈ ["b"; "a"; "b"] → job ∉ ([] : list string))
    as Hdisjoint by (intros job _; apply not_elem_of_nil).
  split; [exact gset_laws|]. split; [exact Hdisjoint|].
  exact (nothing_expected_deletes_everything gset_ops gset_laws
           [] ["b"; "a"; "b"] Hdisjoint).
Defined.

(** X13: a second diff finds nothing.  Against the same expected jobs, a
    list of running jobs that holds only jobs that were running and were no
    orphans gives an empty work list. *)
Theorem second_diff_is_empty O (laws : PySetLaws O) (E A A' : list string) :
  (∀ job, job ∈ A' → job ∈ A ∧ job ∉ jobs_to_delete O E A) →
  jobs_to_delete O E A' = [].
Proof.
  intros Hleft. apply (jobs_to_delete_nil O). intros job Hjob.
  destruct (Hleft job Hjob) as [HA Hout].
  destruct (decide (job ∈ E)) as [|HE]; [done|].
  destruct Hout. by apply (elem_of_jobs_to_delete O).
Qed.

Lemma second_diff_is_empty_witness :
  PySetLaws gset_ops ∧
  (∀ job : string, job ∈ ["x"] →
     job ∈ ["x"; "y"; "z"] ∧ job ∉ jobs_to_delete gset_ops ["x"] ["x"; "y"; "z"]) ∧
  jobs_to_delete gset_ops ["x"] ["x"] = [].
Proof.
  assert (∀ job : string, job ∈ ["x"] →
     job ∈ ["x"; "y"; "z"] ∧ job ∉ jobs_to_delete gset_ops ["x"] ["x"; "y"; "z"])
    as Hleft.
  { intros job ->%list_elem_of_singleton. split; [left|].
    rewrite (elem_of_jobs_to_delete gset_ops). intros [_ Hout].
    apply Hout. left. }
  split; [exact gset_laws|]. split; [exact Hleft|].
  exact (second_diff_is_empty gset_ops gset_laws ["x"] ["x"; "y"; "z"] ["x"] Hleft).
Defined.

(** X14: expecting more jobs never adds an orphan, and there are never more
    orphans than running jobs. *)
Theorem more_expected_fewer_orphans O (laws : PySetLaws O) (E E' A : list string) :
  (∀ job, job ∈ E → job ∈ E') →
  (∀ job, job ∈ jobs_to_delete O E' A → job ∈ jobs_to_delete O E A) ∧
  (length (jobs_to_delete O E' A) ≤ length (jobs_to_delete O E A))%nat ∧
  (length (jobs_to_delete O E A) ≤ length A)%nat.
Proof.
  intros Hmore.
  assert (∀ job, job ∈ jobs_to_delete O E' A → job ∈ jobs_to_delete O E A)
    as Hsub.
  { intros job. rewrite !(elem_of_jobs_to_delete O).
    intros [HA HE']. split; [done|]. intros HE. by apply HE', Hmore. }
  split_and!; [done| |].
  - apply submseteq_length, NoDup_submseteq; [|done].
    by apply NoDup_jobs_to_delete.
  - apply submseteq_length, NoDup_submseteq.
    + by apply NoDup_jobs_to_delete.
    + intros job. rewrite (elem_of_jobs_to_delete O). tauto.
Qed.

Lemma more_expected_fewer_orphans_witness :
  PySetLaws gset_ops ∧
  (∀ job : string, job ∈ ["x"] → job ∈ ["y"; "x"]) ∧
  (length (jobs_to_delete gset_ops ["y"; "x"] ["x"; "y"; "z"]) ≤
     length (jobs_to_delete gset_ops ["x"] ["x"; "y"; "z"]))%nat.
Proof.
  assert (∀ job : string, job ∈ ["x"] → job ∈ ["y"; "x"]) as Hmore
    by (intros job ->%list_elem_of_singleton; right; left).
  split; [exact gset_laws|]. split; [exact Hmore|].
  exact (proj1 (proj2 (more_expected_fewer_orphans gset_ops gset_laws
                         ["x"] ["y"; "x"] ["x"; "y"; "z"] Hmore))).
Defined.

(** ** Passes over a concatenation *)

Lemma list_comprehension_app {A B} (f : A → M B) (l1 l2 : list A) w :
  list_comprehension f (l1 ++ l2) w =
  (xs ← list_comprehension f l1; ys ← list_comprehension f l2; mret (xs ++ ys)) w.
Proof.
  revert w. induction l1 as [|x l1 IH]; intros w; simpl.
  - unfold mbind, M_bind, bind, mret, M_ret, ret. simpl.
    by destruct (list_comprehension f l2 w) as [w' [ys|cls arg]].
  - unfold mbind, M_bind, bind, mret, M_ret, ret in *. simpl.
    destruct (f x w) as [w1 [y|cls arg]]; [|done].
    rewrite IH.
    destruct (list_comprehension f l1 w1) as [w2 [xs|cls arg]]; [|done].
    by destruct (list_comprehension f l2 w2) as [w3 [ys|cls arg]].
Qed.

(** X15: cleaning a list of jobs is the same as cleaning a first part of
    it and then the rest: the same calls in the same order, the responses
    of the two parts one after the other, and an exception that leaves the
    first part keeps the second from starting. *)
Theorem cleanup_in_two_batches client (jobs1 jobs2 : list string) w :
  cleanup_tasks client (jobs1 ++ jobs2) w =
    (l1 ← cleanup_tasks client jobs1; l2 ← cleanup_tasks client jobs2;
     mret (l1 ++ l2)) w ∧
  cleanup_jobs client (jobs1 ++ jobs2) w =
    (l1 ← cleanup_jobs client jobs1; l2 ← cleanup_jobs client jobs2;
     mret (l1 ++ l2)) w.
Proof.
  split.
  - unfold cleanup_tasks. apply list_comprehension_app.
  - unfold cleanup_jobs. apply list_comprehension_app.
Qed.
